(** * teeworlds-masterstatus: the polling subsystem of [main.py]

    A shallow embedding of [main.py] and the properties of its
    natural-language specification.

    Conventions of the embedding.
    - Python [bytes] are lists of [Byte.byte]; [str] is [string], compared
      as Python compares it (lexicographically by character code).
    - Readings of [time.monotonic()] are rational numbers of seconds.  The
      rounding of the floating-point subtraction is not modelled.
    - A coroutine is run against the behaviour of its environment: which
      library call raises, which callbacks the event loop delivers, when.
    - An exception is a value of [exn]; code that may raise returns a
      [result]; the methods of an object thread the object's state. *)

From Stdlib Require Import ZArith QArith String Ascii List Lia.
From Stdlib.Strings Require Import Byte.
From stdpp Require Import base list gmap strings sorting pretty.

Close Scope Q_scope.
Local Open Scope Z_scope.
Local Open Scope list_scope.

(** ** Exceptions and results *)

Inductive exn : Type :=
  | TimeoutError            (* asyncio.TimeoutError *)
  | CancelledError          (* asyncio.CancelledError *)
  | InvalidStateError       (* asyncio.InvalidStateError *)
  | struct_error            (* struct.error *)
  | AttributeError
  | OSError (errno : Z)     (* transport failures reported by the socket *)
  | gaierror (code : Z)     (* socket.gaierror: address resolution failure *)
  | OtherError (what : string).

Global Instance exn_eq_dec : EqDecision exn.
Proof. solve_decision. Defined.

Inductive result (A : Type) : Type :=
  | Return (a : A)
  | Raise (e : exn).
Arguments Return {A} a.
Arguments Raise {A} e.

(** Code that reads and writes an object of type [S] and may raise.  The
    state reached at the point of the raise is kept, as in Python. *)
Definition M (S A : Type) : Type := S -> result A * S.

Definition ret {S A} (a : A) : M S A := fun s => (Return a, s).
Definition raise {S A} (e : exn) : M S A := fun s => (Raise e, s).
Definition bind {S A B} (m : M S A) (k : A -> M S B) : M S B :=
  fun s => match m s with
           | (Return a, s') => k a s'
           | (Raise e, s') => (Raise e, s')
           end.
Definition get {S} : M S S := fun s => (Return s, s).
Definition put {S} (s : S) : M S unit := fun _ => (Return tt, s).

Declare Scope py_scope.
Delimit Scope py_scope with py.
Notation "'let*' x := m 'in' k" := (bind m (fun x => k))
  (at level 10, x name, m at level 100, k at level 200) : py_scope.
Notation "m ;; k" := (bind m (fun _ => k))
  (at level 100, k at level 200, right associativity) : py_scope.

(** ** Bytes *)

Definition bytes : Type := list byte.

(** [data.startswith(prefix)] *)
Fixpoint startswith (data prefix : bytes) {struct prefix} : bool :=
  match prefix, data with
  | [], _ => true
  | _ :: _, [] => false
  | p :: prefix', d :: data' => Byte.eqb d p && startswith data' prefix'
  end.

(** [struct.unpack('!H', b)[0]]: a big-endian unsigned 16-bit integer; the
    argument must be exactly two bytes long, else [struct.error]. *)
Definition unpack_H (b : bytes) : result Z :=
  match b with
  | [hi; lo] => Return (Z.of_N (Byte.to_N hi) * 256 + Z.of_N (Byte.to_N lo))
  | _ => Raise struct_error
  end.

(** ** asyncio.Future *)

Inductive Future (A : Type) : Type :=
  | Pending
  | Finished (a : A)
  | Failed (e : exn)
  | Cancelled.
Arguments Pending {A}.
Arguments Finished {A} a.
Arguments Failed {A} e.
Arguments Cancelled {A}.

Definition done {A} (f : Future A) : bool :=
  match f with Pending => false | _ => true end.

(** [Future.set_result] and [Future.set_exception] raise
    [InvalidStateError] on a future that is already done. *)
Definition set_result {A} (f : Future A) (a : A) : result (Future A) :=
  match f with Pending => Return (Finished a) | _ => Raise InvalidStateError end.

Definition set_exception {A} (f : Future A) (e : exn) : result (Future A) :=
  match f with Pending => Return (Failed e) | _ => Raise InvalidStateError end.

(** [Future.cancel] does nothing to a future that is already done. *)
Definition cancel {A} (f : Future A) : Future A :=
  match f with Pending => Cancelled | _ => f end.

(** [Future.result] *)
Definition future_result {A} (f : Future A) : result A :=
  match f with
  | Finished a => Return a
  | Failed e => Raise e
  | Cancelled => Raise CancelledError
  | Pending => Raise InvalidStateError
  end.

(** ** MasterInfo *)

Record MasterInfo : Type := mkMasterInfo {
  name : string;
  server_count : option Z;
  latency : option Q;
  status : string
}.

(** [MasterInfo()]: the class attributes are the defaults. *)
Definition MasterInfo_new : MasterInfo :=
  {| name := EmptyString; server_count := None; latency := None;
     status := EmptyString |}.

Definition with_name (i : MasterInfo) (v : string) : MasterInfo :=
  {| name := v; server_count := server_count i; latency := latency i; status := status i |}.
Definition with_server_count (i : MasterInfo) (v : Z) : MasterInfo :=
  {| name := name i; server_count := Some v; latency := latency i; status := status i |}.
Definition with_latency (i : MasterInfo) (v : Q) : MasterInfo :=
  {| name := name i; server_count := server_count i; latency := Some v; status := status i |}.
Definition with_status (i : MasterInfo) (v : string) : MasterInfo :=
  {| name := name i; server_count := server_count i; latency := latency i; status := v |}.

(** ** MasterCountProtocol *)

Definition packet_count_request : bytes :=
  repeat xff 10 ++ list_byte_of_string "cou2".
Definition packet_count_response : bytes :=
  repeat xff 10 ++ list_byte_of_string "siz2".

(** The datagram transport made by [create_datagram_endpoint]: what was
    handed to [sendto], and whether [close] was called. *)
Record Transport : Type := mkTransport {
  sent : list bytes;
  closed : bool
}.

(** The protocol object; [time_start] does not exist until
    [connection_made] assigns it. *)
Record MasterCountProtocol : Type := mkProtocol {
  waiter : Future MasterInfo;
  time_start : option Q
}.

(** The objects of one datagram endpoint. *)
Record Endpoint : Type := mkEndpoint {
  protocol : MasterCountProtocol;
  transport : Transport
}.

Definition set_waiter (f : Future MasterInfo) : M Endpoint unit :=
  fun ep => (Return tt,
    {| protocol := {| waiter := f; time_start := time_start (protocol ep) |};
       transport := transport ep |}).
Definition set_time_start (t : Q) : M Endpoint unit :=
  fun ep => (Return tt,
    {| protocol := {| waiter := waiter (protocol ep); time_start := Some t |};
       transport := transport ep |}).
Definition get_time_start : M Endpoint Q :=
  fun ep => match time_start (protocol ep) with
            | Some t => (Return t, ep)
            | None => (Raise AttributeError, ep)
            end.
Definition lift {S A} (r : result A) : M S A := fun s => (r, s).

Local Open Scope py_scope.

(** [__init__] *)
Definition MasterCountProtocol_init : MasterCountProtocol :=
  {| waiter := Pending; time_start := None |}.

(** [response] *)
Definition response (self : MasterCountProtocol) : Future MasterInfo := waiter self.

(** [error_received] *)
Definition error_received (exc : exn) : M Endpoint unit :=
  let* ep := get in
  let* w := lift (set_exception (waiter (protocol ep)) exc) in
  set_waiter w.

(** [transport.sendto(data)] on a connected datagram transport: the
    datagram goes to the socket; an [OSError] of the socket is not raised
    to the caller but handed to [protocol.error_received]. *)
Definition sendto (data : bytes) (send_error : option exn) : M Endpoint unit :=
  (fun ep => (Return tt,
     {| protocol := protocol ep;
        transport := {| sent := sent (transport ep) ++ [data];
                        closed := closed (transport ep) |} |})) ;;
  match send_error with
  | Some exc => error_received exc
  | None => ret tt
  end.

(** [connection_made]; [now] is what [time.monotonic()] returns. *)
Definition connection_made (send_error : option exn) (now : Q) : M Endpoint unit :=
  sendto packet_count_request send_error ;;
  set_time_start now.

(** [datagram_received]; [now] is what [time.monotonic()] returns. *)
Definition datagram_received (data : bytes) (now : Q) : M Endpoint unit :=
  if (length data <=? length packet_count_response)%nat
     || negb (startswith data packet_count_response)
  then ret tt (* that's not it, wait for more *)
  else
    let info := MasterInfo_new in
    let* t0 := get_time_start in
    let info := with_latency info (now - t0)%Q in
    let response := drop (length packet_count_response) data in
    let* n := lift (unpack_H response) in
    let info := with_server_count info n in
    let info := with_status info "ok" in
    let* ep := get in
    let* w := lift (set_result (waiter (protocol ep)) info) in
    set_waiter w.

(** ** The event loop, as one session sees it *)

(** What the loop may call on the protocol once the endpoint exists. *)
Inductive callback : Type :=
  | DatagramReceived (data : bytes)
  | ErrorReceived (exc : exn).

(** A callback and the reading of the monotonic clock when it runs. *)
Record event : Type := mkEvent {
  at_time : Q;
  call : callback
}.

(** One query session as the loop holds it: the endpoint's objects, and the
    exceptions that escaped a callback.  The loop hands those to its
    exception handler, which logs them; they reach no coroutine. *)
Record Session : Type := mkSession {
  endpoint : Endpoint;
  unhandled : list exn
}.

Definition run_callback (m : M Endpoint unit) (s : Session) : Session :=
  match m (endpoint s) with
  | (Return _, ep) => {| endpoint := ep; unhandled := unhandled s |}
  | (Raise e, ep) => {| endpoint := ep; unhandled := unhandled s ++ [e] |}
  end.

(** The loop reads the socket of a transport until the transport is
    closed. *)
Definition deliver (ev : event) (s : Session) : Session :=
  if closed (transport (endpoint s)) then s
  else match call ev with
       | DatagramReceived data => run_callback (datagram_received data (at_time ev)) s
       | ErrorReceived exc => run_callback (error_received exc) s
       end.

Definition deliver_all (evs : list event) (s : Session) : Session :=
  foldl (fun s ev => deliver ev s) s evs.

Definition session_waiter (s : Session) : Future MasterInfo :=
  response (protocol (endpoint s)).

Definition Address : Type := string * Z.

(** What the network does to one session. *)
Record Network : Type := mkNetwork {
  create_error : option exn;  (* [create_datagram_endpoint] raises this *)
  send_error : option exn;    (* the socket refuses the request with this *)
  connected_at : Q;            (* [time.monotonic()] in [connection_made] *)
  wait_from : Q;               (* the loop's clock when [wait_for] starts *)
  events : list event          (* the callbacks the loop delivers, in order *)
}.

(** [loop.create_datagram_endpoint(MasterCountProtocol, remote_addr=addr)]:
    either it raises, or it makes the transport and the protocol and has
    the loop call [connection_made]. *)
Definition create_datagram_endpoint (addr : Address) (net : Network) : result Session :=
  match create_error net with
  | Some e => Raise e
  | None =>
      Return (run_callback (connection_made (send_error net) (connected_at net))
                {| endpoint := {| protocol := MasterCountProtocol_init;
                                  transport := {| sent := []; closed := false |} |};
                   unhandled := [] |})
  end.

Definition cancel_waiter (s : Session) : Session :=
  {| endpoint := {| protocol := {| waiter := cancel (session_waiter s);
                                   time_start := time_start (protocol (endpoint s)) |};
                    transport := transport (endpoint s) |};
     unhandled := unhandled s |}.

(** [asyncio.wait_for(fut, timeout)], entered when the loop's clock reads
    [now]: the loop delivers callbacks until the future is done, and then
    its result is returned or its exception raised; when the clock reaches
    [now + timeout] first, the future is cancelled and [TimeoutError]
    raised.  The events not yet delivered are returned with the session. *)
Fixpoint wait_for (timeout now : Q) (evs : list event) (s : Session)
    : result MasterInfo * (Session * list event) :=
  if done (session_waiter s) then (future_result (session_waiter s), (s, evs))
  else match evs with
       | [] => (Raise TimeoutError, (cancel_waiter s, []))
       | ev :: evs' =>
           if Qle_bool (now + timeout) (at_time ev)
           then (Raise TimeoutError, (cancel_waiter s, evs))
           else wait_for timeout now evs' (deliver ev s)
       end.

(** ** query_master *)

Definition default_timeout : Q := 1.

(** The [try] block of the coroutine, with what it leaves behind: the
    session (if the endpoint was created) and the events still to come. *)
Definition query_master_try (addr : Address) (net : Network) (timeout : Q)
    : result MasterInfo * option (Session * list event) :=
  match create_datagram_endpoint addr net with
  | Raise e => (Raise e, None)
  | Return s =>
      let r := wait_for timeout (wait_from net) (events net) s in
      (fst r, Some (snd r))
  end.

(** The coroutine: [handled] is the [try] statement with its two
    handlers.  (The assignment of the name is made on the object that the
    future holds as well; nothing reads it there.) *)
Definition query_master_run (name : string) (addr : Address) (net : Network)
    (timeout : Q) : result MasterInfo * option (Session * list event) :=
  let attempt := query_master_try addr net timeout in
  let handled :=
    match fst attempt with
    | Return masterinfo => Return masterinfo
    | Raise TimeoutError => Return (with_status MasterInfo_new "timeout")
    | Raise _ => Return (with_status MasterInfo_new "error")
    end in
  (match handled with
   | Return masterinfo => Return (with_name masterinfo name)
   | Raise e => Raise e
   end,
   snd attempt).

Definition query_master (name : string) (addr : Address) (net : Network)
    (timeout : Q) : result MasterInfo :=
  fst (query_master_run name addr net timeout).

(** The session after the loop has delivered every event, those after the
    return of [query_master] included. *)
Definition session_at_rest (name : string) (addr : Address) (net : Network)
    (timeout : Q) : option Session :=
  match snd (query_master_run name addr net timeout) with
  | Some (s, rest) => Some (deliver_all rest s)
  | None => None
  end.

(** ** html_print *)

(** Python's [not x] for an optional number: true for [None] and for
    zero. *)
Definition falsy {A} (is_zero : A -> bool) (x : option A) : bool :=
  match x with None => true | Some v => is_zero v end.

(** Round to the nearest integer, ties to even. *)
Definition round_half_even (x : Q) : Z :=
  let d := Z.pos (Qden x) in
  let q := Qnum x / d in
  let r := Qnum x mod d in
  match 2 * r ?= d with
  | Lt => q
  | Gt => q + 1
  | Eq => if Z.even q then q else q + 1
  end.

(** ["{:.0f}".format(x)] *)
Definition format_0f (x : Q) : string :=
  let n := round_half_even x in
  if (n =? 0) && negb (Qle_bool 0 x) then "-0" else pretty n.

Definition html_row (masterinfo : MasterInfo) : string :=
  if falsy (Z.eqb 0) (server_count masterinfo) || falsy (Qeq_bool 0) (latency masterinfo)
  then "<tr><td>" +:+ name masterinfo +:+ "</td><td>" +:+ status masterinfo
       +:+ "</td><td>-</td><td>-</td></tr>"
  else
    match server_count masterinfo, latency masterinfo with
    | Some servers, Some lat =>
        "<tr><td>" +:+ name masterinfo +:+ "</td><td>" +:+ status masterinfo
        +:+ "</td><td>" +:+ pretty servers
        +:+ "</td><td>" +:+ format_0f (lat * 1000)%Q +:+ "ms</td></tr>"
    | _, _ => EmptyString (* not reached: both are numbers here *)
    end.

(** The one-character string of a double quote. *)
Definition dquote : string := String (ascii_of_nat 34) EmptyString.

(** The lines printed to [file]. *)
Definition html_print (masterinfos : list MasterInfo) : list string :=
  ["<div id=" +:+ dquote +:+ "masterstatus" +:+ dquote +:+ ">";
   "<table><thead><tr><th>Name</th><th>Status</th><th>Servers</th><th>Latency</th></tr></thead><tbody>"]
  ++ (html_row <$> masterinfos)
  ++ ["</tbody></table>"; "</div>"].

(** ** MasterInfo.__repr__ *)

(** [__repr__]: it needs [not x] and the number formats of [html_print],
    so it stands here. *)
Definition MasterInfo_repr (self : MasterInfo) : string :=
  if falsy (Z.eqb 0) (server_count self) || falsy (Qeq_bool 0) (latency self)
  then "<MasterInfo " +:+ name self +:+ " " +:+ status self +:+ ">"
  else
    match server_count self, latency self with
    | Some servers, Some lat =>
        "<MasterInfo " +:+ name self +:+ " " +:+ status self
        +:+ " (" +:+ pretty servers +:+ " servers, "
        +:+ format_0f (lat * 1000)%Q +:+ "ms)>"
    | _, _ => EmptyString (* not reached: both are numbers here *)
    end.

(** ** update *)

(** [sorted(l, key=key)] with string keys: stable, and it compares keys
    with [<] only.  Each element goes after the elements already placed
    whose key is not greater. *)
Fixpoint insort {A} (key : A -> string) (x : A) (l : list A) : list A :=
  match l with
  | [] => [x]
  | y :: l' => if String.ltb (key x) (key y) then x :: l else y :: insort key x l'
  end.

Definition sorted {A} (key : A -> string) (l : list A) : list A :=
  foldl (fun acc x => insort key x acc) [] l.

Definition masters : gmap string Address :=
  list_to_map
    [("master1", ("master1.teeworlds.com", 8300));
     ("master2", ("master2.teeworlds.com", 8300));
     ("master3", ("master3.teeworlds.com", 8300));
     ("master4", ("master4.teeworlds.com", 8300));
     ("website", ("teeworlds.com", 8300))].

(** What happens around one call of [update]: the network of each
    session (by endpoint name), the order in which the set [done] of
    [asyncio.wait] yields its members (as indices into [results]), and
    whether opening the output file fails. *)
Record Cycle : Type := mkCycle {
  network : string -> Network;
  done_order : list nat;
  open_error : option exn
}.

(** [map(asyncio.Future.result, done)], consumed: the results of the
    tasks, or the exception of the first task that raised. *)
Fixpoint task_results {A} (done : list (result A)) : result (list A) :=
  match done with
  | [] => Return []
  | Return a :: done' =>
      match task_results done' with
      | Return l => Return (a :: l)
      | Raise e => Raise e
      end
  | Raise e :: _ => Raise e
  end.

(** The tasks of [update] when they are all done, for a registry
    [registry] in the place of the global [masters]: [asyncio.wait]
    returns once every task has finished. *)
Definition done_of (registry : gmap string Address) (c : Cycle) : list (result MasterInfo) :=
  let results :=
    (fun item : string * Address =>
       query_master (fst item) (snd item) (network c (fst item)) default_timeout)
    <$> map_to_list registry in
  omap (fun i => results !! i) (done_order c).

(** The list [masterinfos] of [update]. *)
Definition masterinfos_of (registry : gmap string Address) (c : Cycle)
    : result (list MasterInfo) :=
  match task_results (done_of registry c) with
  | Return l => Return (sorted name l)
  | Raise e => Raise e
  end.

(** [update]: the state is the content of the output file, the lines
    written to it.  Opening the file may raise; when it does not, the file
    is empty until [html_print] writes. *)
Definition update_of (registry : gmap string Address) (c : Cycle) : M (list string) unit :=
  match open_error c with
  | Some e => raise e
  | None =>
      put [] ;;
      let* masterinfos := lift (masterinfos_of registry c) in
      put (html_print masterinfos)
  end.

Definition update : Cycle -> M (list string) unit := update_of masters.

(** ** main *)

(** What the poll loop is seen to do. *)
Inductive action : Type :=
  | Updated (contents : list string)  (* [update] ran and wrote the file *)
  | Slept (seconds : Z).               (* [asyncio.sleep] ran *)

Inductive outcome : Type :=
  | Returned                (* the coroutine returned *)
  | Raised (e : exn)        (* an exception left the coroutine *)
  | Running.                (* neither, within the iterations observed *)

(** The [while True] loop of [main], observed for [fuel] iterations from
    cycle [k] on; [world k] is what happens around cycle [k].  The parsing
    of the command line, which gives the name of the file, comes before
    the loop and is left out. *)
Fixpoint main_loop (fuel : nat) (world : nat -> Cycle) (k : nat) (file : list string)
    : list action * outcome * list string :=
  match fuel with
  | O => ([], Running, file)
  | S fuel' =>
      match update (world k) file with
      | (Raise e, file') => ([], Raised e, file')
      | (Return _, file') =>
          let '(trace, out, file'') := main_loop fuel' world (S k) file' in
          (Updated file' :: Slept 10 :: trace, out, file'')
      end
  end.

Definition main (fuel : nat) (world : nat -> Cycle) (file : list string)
    : list action * outcome * list string :=
  main_loop fuel world 0%nat file.

(** * The vocabulary of the properties *)

(** A datagram passes the filter of [datagram_received]: it is longer than
    the response prefix and starts with it. *)
Definition is_match (data : bytes) : bool :=
  (length packet_count_response <? length data)%nat
  && startswith data packet_count_response.

Definition big_endian (hi lo : byte) : Z :=
  Z.of_N (Byte.to_N hi) * 256 + Z.of_N (Byte.to_N lo).

(** The [MasterInfo] that [datagram_received] builds from a response. *)
Definition info_of (n : Z) (lat : Q) : MasterInfo :=
  {| name := EmptyString; server_count := Some n; latency := Some lat;
     status := "ok" |}.

(** An event that [datagram_received] discards: a datagram that is not a
    match. *)
Definition discarded (ev : event) : Prop :=
  match call ev with
  | DatagramReceived data => is_match data = false
  | ErrorReceived _ => False
  end.

(** The callback of the event runs before the timer of [wait_for] fires. *)
Definition before_deadline (timeout now : Q) (ev : event) : Prop :=
  (at_time ev < now + timeout)%Q.

Definition timeout_info (name : string) : MasterInfo :=
  {| name := name; server_count := None; latency := None; status := "timeout" |}.
Definition error_info (name : string) : MasterInfo :=
  {| name := name; server_count := None; latency := None; status := "error" |}.
Definition ok_info (name : string) (n : Z) (lat : Q) : MasterInfo :=
  {| name := name; server_count := Some n; latency := Some lat; status := "ok" |}.

(** The states the future of a session takes while [wait_for] runs: it is
    never cancelled there, and a result in it was made by
    [datagram_received]. *)
Definition live (f : Future MasterInfo) : Prop :=
  match f with
  | Pending | Failed _ => True
  | Finished info => exists n lat, info = info_of n lat
  | Cancelled => False
  end.

(** The MasterInfo that [query_master] returns. *)
Definition resolved (nm : string) (addr : Address) (net : Network) (timeout : Q)
    : MasterInfo :=
  match fst (query_master_try addr net timeout) with
  | Return masterinfo => with_name masterinfo nm
  | Raise e => if decide (e = TimeoutError) then timeout_info nm else error_info nm
  end.

(** The results of the tasks of [update], in the order of [results]. *)
Definition results_of (registry : gmap string Address) (c : Cycle) : list MasterInfo :=
  (fun item : string * Address =>
     resolved (fst item) (snd item) (network c (fst item)) default_timeout)
  <$> map_to_list registry.

(** The same results in the order in which [done] yields them. *)
Definition picked_of (registry : gmap string Address) (c : Cycle) : list MasterInfo :=
  omap (fun i => results_of registry c !! i) (done_order c).

(** The lines that a cycle writes when the file opens: the snapshot of
    the cycle, printed. *)
Definition written (c : Cycle) : list string :=
  match masterinfos_of masters c with
  | Return masterinfos => html_print masterinfos
  | Raise _ => []
  end.

(** The order of [sorted] on the keys: not greater. *)
Definition key_le {A} (key : A -> string) (a b : A) : Prop :=
  String.le (key a) (key b).

(** * Sessions and cycles used as examples *)

Definition addr1 : Address := ("master1.teeworlds.com", 8300).

Definition response_at (t : Q) (hi lo : byte) : event :=
  {| at_time := t; call := DatagramReceived (packet_count_response ++ [hi; lo]) |}.

(** Two bytes that are no response, a tenth of a second after the start. *)
Definition garbage : event :=
  {| at_time := (1001 # 10)%Q; call := DatagramReceived [x01; x02] |}.

(** The prefix with a 3-byte payload, 0.2 s after the start, and nothing
    else. *)
Definition malformed : event :=
  {| at_time := (1002 # 10)%Q;
     call := DatagramReceived (packet_count_response ++ [x00; x01; x02]) |}.

(** A session that has sent its request at clock 100 and waits. *)
Definition session_waiting : Session :=
  {| endpoint := {| protocol := {| waiter := Pending; time_start := Some 100%Q |};
                    transport := {| sent := [packet_count_request]; closed := false |} |};
     unhandled := [] |}.

(** Garbage, then the count 120 after 0.3 s, then a second response. *)
Definition net_ok : Network :=
  {| create_error := None; send_error := None;
     connected_at := 100; wait_from := 100;
     events := [garbage; response_at (1003 # 10)%Q x00 x78;
                response_at (1004 # 10)%Q x00 x79] |}.

(** Garbage, then a response 0.1 s after the deadline. *)
Definition net_late : Network :=
  {| create_error := None; send_error := None;
     connected_at := 100; wait_from := 100;
     events := [garbage; response_at (1011 # 10)%Q x00 x78] |}.

Definition net_malformed : Network :=
  {| create_error := None; send_error := None;
     connected_at := 100; wait_from := 100;
     events := [malformed] |}.

(** The count 0, 0.3 s after the start. *)
Definition net_zero : Network :=
  {| create_error := None; send_error := None;
     connected_at := 100; wait_from := 100;
     events := [response_at (1003 # 10)%Q x00 x00] |}.

(** The address does not resolve. *)
Definition net_unresolved : Network :=
  {| create_error := Some (gaierror (-2)); send_error := None;
     connected_at := 0; wait_from := 0; events := [] |}.

Definition example_network (nm : string) : Network :=
  if decide (nm = "master1") then net_ok
  else if decide (nm = "master2") then net_late
  else if decide (nm = "master3") then net_malformed
  else net_unresolved.

Definition cycle1 : Cycle :=
  {| network := example_network; done_order := [3; 1; 0; 4; 2]%nat; open_error := None |}.
Definition cycle2 : Cycle :=
  {| network := example_network; done_order := [0; 1; 2; 3; 4]%nat; open_error := None |}.

(** A response that is late for the deadline, or that is no well-formed
    response: a datagram that is not a match, or a match that is not 16
    bytes long. *)
Definition unusable (ev : event) : Prop :=
  match call ev with
  | DatagramReceived data => is_match data = false \/ length data <> 16%nat
  | ErrorReceived _ => False
  end.

(** A session that waits: the transport is open, [connection_made] has
    run, and the future is pending. *)
Definition waiting (s : Session) : Prop :=
  closed (transport (endpoint s)) = false
  /\ is_Some (time_start (protocol (endpoint s)))
  /\ session_waiter s = Pending.

(** The port is unreachable 0.2 s after the start; a response follows. *)
Definition net_refused : Network :=
  {| create_error := None; send_error := None;
     connected_at := 100; wait_from := 100;
     events := [garbage; {| at_time := (1002 # 10)%Q; call := ErrorReceived (OSError 111) |};
                response_at (1003 # 10)%Q x00 x78] |}.

(** The socket refuses the request; a response comes all the same. *)
Definition net_unsent : Network :=
  {| create_error := None; send_error := Some (OSError 101);
     connected_at := 100; wait_from := 100;
     events := [response_at (1003 # 10)%Q x00 x78] |}.

(** Only garbage and a response of the wrong size before the deadline. *)
Definition net_noise : Network :=
  {| create_error := None; send_error := None;
     connected_at := 100; wait_from := 100;
     events := [garbage; malformed; response_at (1011 # 10)%Q x00 x78] |}.

(** A session that has resolved to the count 120. *)
Definition session_resolved : Session :=
  {| endpoint := {| protocol := {| waiter := Finished (info_of 120 ((1003 # 10) - 100)%Q);
                                   time_start := Some 100%Q |};
                    transport := {| sent := [packet_count_request]; closed := false |} |};
     unhandled := [] |}.

(** As [example_network] for master1, and nothing resolves elsewhere. *)
Definition other_network (nm : string) : Network :=
  if decide (nm = "master1") then net_ok else net_unresolved.

Definition cycle3 : Cycle :=
  {| network := other_network; done_order := [4; 3; 2; 1; 0]%nat; open_error := None |}.

(** The output file cannot be opened. *)
Definition cycle_unwritable : Cycle :=
  {| network := example_network; done_order := [0; 1; 2; 3; 4]%nat;
     open_error := Some (OSError 13) |}.

(** * Properties *)

(** ** The datagram filter *)

Lemma length_packet_count_response : length packet_count_response = 14%nat.
Proof. reflexivity. Qed.

Lemma filter_is_match data :
  (length data <=? length packet_count_response)%nat
  || negb (startswith data packet_count_response) = negb (is_match data).
Proof.
  unfold is_match. rewrite negb_andb. f_equal.
  destruct (Nat.leb_spec (length data) (length packet_count_response));
    destruct (Nat.ltb_spec (length packet_count_response) (length data)); simpl; lia || reflexivity.
Qed.

Lemma startswith_app prefix rest : startswith (prefix ++ rest) prefix = true.
Proof.
  induction prefix as [|p prefix IH]; simpl; [reflexivity|].
  rewrite IH, andb_true_r. apply Byte.byte_dec_lb. reflexivity.
Qed.

Lemma startswith_take data prefix :
  startswith data prefix = true <-> take (length prefix) data = prefix.
Proof.
  revert data. induction prefix as [|p prefix IH]; intros [|d data]; simpl; try easy.
  rewrite andb_true_iff, IH. split.
  - intros [Hd ->]. apply Byte.byte_dec_bl in Hd. by subst.
  - intros [= -> Ht]. split; [by apply Byte.byte_dec_lb|done].
Qed.

Lemma unpack_H_length b : length b <> 2%nat -> unpack_H b = Raise struct_error.
Proof. destruct b as [|? [|? [|? ?]]]; simpl; congruence. Qed.

Lemma unpack_H_range hi lo n : unpack_H [hi; lo] = Return n -> 0 <= n < 65536.
Proof.
  intros [= <-].
  pose proof (Byte.to_N_bounded hi). pose proof (Byte.to_N_bounded lo). lia.
Qed.

(** ** What [datagram_received] does, case by case *)

Lemma datagram_received_no_match data now ep :
  is_match data = false -> datagram_received data now ep = (Return tt, ep).
Proof.
  intros Hm. unfold datagram_received. rewrite filter_is_match, Hm. reflexivity.
Qed.

Lemma datagram_received_struct_error data now ep t0 :
  is_match data = true -> length data <> 16%nat ->
  time_start (protocol ep) = Some t0 ->
  datagram_received data now ep = (Raise struct_error, ep).
Proof.
  intros Hm Hlen Ht. unfold datagram_received. rewrite filter_is_match, Hm.
  cbn [negb]. unfold bind at 1, get_time_start. cbv beta iota. rewrite Ht.
  unfold bind at 1, lift. rewrite unpack_H_length; [reflexivity|].
  rewrite length_drop, length_packet_count_response.
  apply andb_true_iff in Hm as [Hm _]. apply Nat.ltb_lt in Hm.
  rewrite length_packet_count_response in Hm. lia.
Qed.

Lemma is_match_response hi lo : is_match (packet_count_response ++ [hi; lo]) = true.
Proof.
  unfold is_match. rewrite startswith_app, length_app, length_packet_count_response.
  reflexivity.
Qed.

Lemma datagram_received_response hi lo now ep t0 :
  time_start (protocol ep) = Some t0 ->
  waiter (protocol ep) = Pending ->
  datagram_received (packet_count_response ++ [hi; lo]) now ep
  = (Return tt,
     {| protocol := {| waiter := Finished (info_of (big_endian hi lo) (now - t0)%Q);
                       time_start := Some t0 |};
        transport := transport ep |}).
Proof.
  intros Ht Hw. unfold datagram_received.
  rewrite filter_is_match, is_match_response.
  cbn [negb]. unfold bind at 1, get_time_start. cbv beta iota. rewrite Ht.
  rewrite drop_app_length.
  unfold bind, lift, get, set_waiter. cbn [unpack_H]. rewrite Hw. cbn [set_result]. rewrite Ht.
  reflexivity.
Qed.

(** Once the future is done, [datagram_received] and [error_received]
    leave the objects as they are, whatever they are given. *)
Lemma datagram_received_done data now ep :
  done (waiter (protocol ep)) = true -> snd (datagram_received data now ep) = ep.
Proof.
  intros Hd. unfold datagram_received.
  destruct (_ || _); [reflexivity|].
  unfold bind, get_time_start, lift, get, set_waiter.
  destruct (time_start (protocol ep)); [|reflexivity].
  destruct (unpack_H _); [|reflexivity].
  destruct (waiter (protocol ep)); [discriminate|reflexivity..].
Qed.

Lemma error_received_done exc ep :
  done (waiter (protocol ep)) = true -> snd (error_received exc ep) = ep.
Proof.
  intros Hd. unfold error_received, bind, lift, get, set_waiter.
  destruct (waiter (protocol ep)); [discriminate|reflexivity..].
Qed.

Lemma datagram_received_keeps data now ep :
  transport (snd (datagram_received data now ep)) = transport ep
  /\ time_start (protocol (snd (datagram_received data now ep))) = time_start (protocol ep).
Proof.
  unfold datagram_received.
  destruct (_ || _); [by split|].
  unfold bind, get_time_start, lift, get, set_waiter.
  destruct (time_start (protocol ep)) eqn:Ht; [|by simpl; rewrite ?Ht].
  destruct (unpack_H _); [|by simpl; rewrite ?Ht].
  destruct (waiter (protocol ep)); simpl; by rewrite ?Ht.
Qed.

Lemma error_received_keeps exc ep :
  transport (snd (error_received exc ep)) = transport ep
  /\ time_start (protocol (snd (error_received exc ep))) = time_start (protocol ep).
Proof.
  unfold error_received, bind, lift, get, set_waiter.
  destruct (waiter (protocol ep)); by simpl.
Qed.

(** ** Sessions and the loop *)

Lemma endpoint_run_callback m s : endpoint (run_callback m s) = snd (m (endpoint s)).
Proof. unfold run_callback. by destruct (m (endpoint s)) as [[?|?] ?]. Qed.

Lemma deliver_keeps ev s :
  transport (endpoint (deliver ev s)) = transport (endpoint s)
  /\ time_start (protocol (endpoint (deliver ev s))) = time_start (protocol (endpoint s)).
Proof.
  unfold deliver. destruct (closed _); [by split|].
  destruct (call ev); rewrite endpoint_run_callback;
    [apply datagram_received_keeps | apply error_received_keeps].
Qed.

Lemma deliver_done ev s :
  done (session_waiter s) = true -> endpoint (deliver ev s) = endpoint s.
Proof.
  intros Hd. unfold deliver. destruct (closed _); [done|].
  destruct (call ev); rewrite endpoint_run_callback;
    [by apply datagram_received_done | by apply error_received_done].
Qed.

Lemma deliver_all_keeps evs s :
  transport (endpoint (deliver_all evs s)) = transport (endpoint s)
  /\ time_start (protocol (endpoint (deliver_all evs s))) = time_start (protocol (endpoint s)).
Proof.
  revert s. induction evs as [|ev evs IH]; intros s; [by split|].
  unfold deliver_all in *. simpl.
  destruct (IH (deliver ev s)) as [-> ->]. apply deliver_keeps.
Qed.

Lemma deliver_all_done evs s :
  done (session_waiter s) = true -> endpoint (deliver_all evs s) = endpoint s.
Proof.
  revert s. induction evs as [|ev evs IH]; intros s Hd; [done|].
  unfold deliver_all in *. simpl.
  assert (He : endpoint (deliver ev s) = endpoint s) by by apply deliver_done.
  rewrite IH; [done|]. unfold session_waiter in *. by rewrite He.
Qed.

Lemma deliver_discarded ev s : discarded ev -> deliver ev s = s.
Proof.
  unfold discarded, deliver. intros Hd. destruct (closed _); [done|].
  destruct (call ev) as [data|]; [|done].
  unfold run_callback. rewrite datagram_received_no_match by done. by destruct s.
Qed.

Lemma Qle_bool_false x y : (y < x)%Q -> Qle_bool x y = false.
Proof.
  intros Hlt. destruct (Qle_bool x y) eqn:E; [|done].
  apply Qle_bool_iff in E. exfalso. by apply (Qlt_not_le y x).
Qed.

Lemma wait_for_done timeout now evs s :
  done (session_waiter s) = true ->
  wait_for timeout now evs s = (future_result (session_waiter s), (s, evs)).
Proof. intros Hd. destruct evs; simpl; by rewrite Hd. Qed.

Lemma wait_for_step timeout now ev evs s :
  done (session_waiter s) = false -> before_deadline timeout now ev ->
  wait_for timeout now (ev :: evs) s = wait_for timeout now evs (deliver ev s).
Proof. intros Hd Ht. simpl. by rewrite Hd, Qle_bool_false. Qed.

Lemma wait_for_discarded timeout now pre evs s :
  done (session_waiter s) = false ->
  Forall (fun ev => before_deadline timeout now ev /\ discarded ev) pre ->
  wait_for timeout now (pre ++ evs) s = wait_for timeout now evs s.
Proof.
  intros Hd Hpre. induction Hpre as [|ev pre [Ht Hdis] _ IH]; [done|].
  rewrite <- app_comm_cons, wait_for_step by done. by rewrite deliver_discarded.
Qed.

(** The session that [create_datagram_endpoint] returns. *)
Lemma create_datagram_endpoint_created addr net :
  create_error net = None ->
  exists s, create_datagram_endpoint addr net = Return s
    /\ transport (endpoint s) = {| sent := [packet_count_request]; closed := false |}
    /\ time_start (protocol (endpoint s)) = Some (connected_at net)
    /\ session_waiter s
       = match send_error net with Some exc => Failed exc | None => Pending end.
Proof.
  intros Hc. unfold create_datagram_endpoint. rewrite Hc.
  eexists. split; [reflexivity|].
  by destruct (send_error net).
Qed.

Lemma deliver_response t hi lo s t0 :
  closed (transport (endpoint s)) = false ->
  time_start (protocol (endpoint s)) = Some t0 ->
  session_waiter s = Pending ->
  session_waiter
    (deliver {| at_time := t; call := DatagramReceived (packet_count_response ++ [hi; lo]) |} s)
  = Finished (info_of (big_endian hi lo) (t - t0)%Q).
Proof.
  intros Hc Ht Hw. unfold deliver. rewrite Hc. cbn [call at_time].
  unfold session_waiter, response. rewrite endpoint_run_callback.
  by erewrite datagram_received_response.
Qed.

(** ** query_master, path by path *)

(** [query_master] in terms of what its [try] block did. *)
Lemma query_master_of_try name addr net timeout :
  query_master name addr net timeout
  = match fst (query_master_try addr net timeout) with
    | Return masterinfo => Return (with_name masterinfo name)
    | Raise e => Return (if decide (e = TimeoutError) then timeout_info name
                         else error_info name)
    end.
Proof.
  unfold query_master, query_master_run. cbn [fst].
  destruct (fst (query_master_try addr net timeout)) as [mi|e]; [done|].
  by destruct e.
Qed.

Lemma query_master_try_created addr net timeout s :
  create_datagram_endpoint addr net = Return s ->
  query_master_try addr net timeout
  = (fst (wait_for timeout (wait_from net) (events net) s),
     Some (snd (wait_for timeout (wait_from net) (events net) s))).
Proof. intros Hs. unfold query_master_try. by rewrite Hs. Qed.

(** The first datagram that is not discarded is a well-formed response and
    comes before the deadline. *)
Lemma query_master_response name addr net timeout pre hi lo t post :
  create_error net = None ->
  send_error net = None ->
  events net
  = pre ++ {| at_time := t; call := DatagramReceived (packet_count_response ++ [hi; lo]) |}
        :: post ->
  Forall (fun ev => before_deadline timeout (wait_from net) ev /\ discarded ev) pre ->
  (t < wait_from net + timeout)%Q ->
  query_master name addr net timeout
  = Return (ok_info name (big_endian hi lo) (t - connected_at net)%Q).
Proof.
  intros Hc Hs Hev Hpre Ht.
  destruct (create_datagram_endpoint_created addr net Hc) as (s & Hcr & Htr & Hts & Hw).
  rewrite Hs in Hw.
  rewrite query_master_of_try, (query_master_try_created _ _ _ _ Hcr). cbn [fst].
  rewrite Hev, wait_for_discarded by (done || by rewrite Hw).
  rewrite wait_for_step by (done || by rewrite Hw).
  rewrite wait_for_done; erewrite deliver_response; try done; by rewrite ?Htr.
Qed.

(** Everything the loop delivers before the deadline is discarded. *)
Lemma wait_for_times_out timeout now evs s :
  done (session_waiter s) = false ->
  Forall (fun ev => before_deadline timeout now ev -> discarded ev) evs ->
  fst (wait_for timeout now evs s) = Raise TimeoutError.
Proof.
  intros Hd Hevs. induction Hevs as [|ev evs Hev _ IH]; simpl; rewrite Hd; [done|].
  destruct (Qle_bool (now + timeout) (at_time ev)) eqn:Hle; [done|].
  rewrite deliver_discarded; [done|]. apply Hev. unfold before_deadline.
  apply Qnot_le_lt. intros Hle'. apply Qle_bool_iff in Hle'. congruence.
Qed.

Lemma query_master_times_out name addr net timeout :
  create_error net = None ->
  send_error net = None ->
  Forall (fun ev => before_deadline timeout (wait_from net) ev -> discarded ev) (events net) ->
  query_master name addr net timeout = Return (timeout_info name).
Proof.
  intros Hc Hs Hevs.
  destruct (create_datagram_endpoint_created addr net Hc) as (s & Hcr & Htr & Hts & Hw).
  rewrite Hs in Hw.
  rewrite query_master_of_try, (query_master_try_created _ _ _ _ Hcr). cbn [fst].
  rewrite wait_for_times_out; [done| by rewrite Hw |done].
Qed.

(** ** The resolution of one session *)

(** C2: a session whose first matching datagram is the 14-byte prefix with
    a 2-byte payload, and arrives before the deadline, resolves to status
    ok; the server count is the big-endian unsigned 16-bit value of the
    payload, and the latency, the clock at arrival minus the clock at
    [connection_made], is not negative (the clock is monotonic). *)
Theorem response_in_time_resolves_ok name addr net timeout pre hi lo t post :
  create_error net = None ->
  send_error net = None ->
  events net = pre ++ response_at t hi lo :: post ->
  Forall (fun ev => before_deadline timeout (wait_from net) ev /\ discarded ev) pre ->
  (t < wait_from net + timeout)%Q ->
  (connected_at net <= t)%Q ->
  query_master name addr net timeout
  = Return {| name := name;
              server_count := Some (Z.of_N (Byte.to_N hi) * 256 + Z.of_N (Byte.to_N lo));
              latency := Some (t - connected_at net)%Q;
              status := "ok" |}
  /\ 0 <= Z.of_N (Byte.to_N hi) * 256 + Z.of_N (Byte.to_N lo) < 65536
  /\ (0 <= t - connected_at net)%Q.
Proof.
  intros Hc Hs Hev Hpre Ht Hmono. split; [|split].
  - by apply (query_master_response name addr net timeout pre hi lo t post).
  - by apply (unpack_H_range hi lo).
  - unfold Qminus. apply (proj1 (Qle_minus_iff _ _)). exact Hmono.
Qed.

Lemma response_in_time_resolves_ok_witness :
  query_master "master1" addr1 net_ok 1
  = Return {| name := "master1"; server_count := Some 120;
              latency := Some ((1003 # 10) - 100)%Q; status := "ok" |}
  /\ 0 <= 120 < 65536
  /\ (0 <= (1003 # 10) - 100)%Q.
Proof.
  apply (response_in_time_resolves_ok "master1" addr1 net_ok 1 [garbage] x00 x78
           (1003 # 10)%Q [response_at (1004 # 10)%Q x00 x79]).
  - reflexivity.
  - reflexivity.
  - reflexivity.
  - repeat constructor.
  - reflexivity.
  - discriminate.
Defined.

(** C3: a datagram that does not start with the response prefix, or is not
    longer than 14 bytes, is discarded: the session is exactly as before, no
    exception is raised, and the waiting goes on; a matching datagram that
    comes after such datagrams, before the deadline, resolves the session
    to ok with its own data. *)
Theorem non_matching_datagrams_discarded name addr net timeout pre hi lo t post :
  create_error net = None ->
  send_error net = None ->
  events net = pre ++ response_at t hi lo :: post ->
  Forall (fun ev => before_deadline timeout (wait_from net) ev
                    /\ exists data, call ev = DatagramReceived data
                         /\ (startswith data packet_count_response = false
                             \/ (length data <= 14)%nat)) pre ->
  (t < wait_from net + timeout)%Q ->
  Forall (fun ev => forall s, deliver ev s = s) pre
  /\ (forall s evs, done (session_waiter s) = false ->
        wait_for timeout (wait_from net) (pre ++ evs) s
        = wait_for timeout (wait_from net) evs s)
  /\ query_master name addr net timeout
     = Return {| name := name;
                 server_count := Some (Z.of_N (Byte.to_N hi) * 256 + Z.of_N (Byte.to_N lo));
                 latency := Some (t - connected_at net)%Q;
                 status := "ok" |}.
Proof.
  intros Hc Hs Hev Hpre Ht.
  assert (Hdis : Forall (fun ev => before_deadline timeout (wait_from net) ev
                                   /\ discarded ev) pre).
  { eapply Forall_impl; [exact Hpre|]. intros ev [Hb (data & Hcall & Hno)].
    split; [done|]. unfold discarded. rewrite Hcall. unfold is_match.
    destruct Hno as [-> | Hlen]; [apply andb_false_r|].
    apply andb_false_iff. left. apply Nat.ltb_ge.
    by rewrite length_packet_count_response. }
  split; [|split].
  - eapply Forall_impl; [exact Hdis|]. intros ev [_ Hd] s. by apply deliver_discarded.
  - intros s evs Hd. by apply wait_for_discarded.
  - by apply (query_master_response name addr net timeout pre hi lo t post).
Qed.

Lemma non_matching_datagrams_discarded_witness :
  Forall (fun ev => forall s, deliver ev s = s) [garbage]
  /\ (forall s evs, done (session_waiter s) = false ->
        wait_for 1 (wait_from net_ok) ([garbage] ++ evs) s
        = wait_for 1 (wait_from net_ok) evs s)
  /\ query_master "master1" addr1 net_ok 1
     = Return {| name := "master1"; server_count := Some 120;
                 latency := Some ((1003 # 10) - 100)%Q; status := "ok" |}.
Proof.
  apply (non_matching_datagrams_discarded "master1" addr1 net_ok 1 [garbage] x00 x78
           (1003 # 10)%Q [response_at (1004 # 10)%Q x00 x79]).
  - reflexivity.
  - reflexivity.
  - reflexivity.
  - constructor; [|constructor]. split; [reflexivity|].
    exists [x01; x02]. split; [reflexivity|]. left. reflexivity.
  - reflexivity.
Defined.

(** C4: when no matching datagram arrives before the deadline, the session
    resolves to status timeout, and its MasterInfo has no server count and
    no latency. *)
Theorem no_response_resolves_timeout name addr net timeout :
  create_error net = None ->
  send_error net = None ->
  Forall (fun ev => before_deadline timeout (wait_from net) ev -> discarded ev)
         (events net) ->
  query_master name addr net timeout
  = Return {| name := name; server_count := None; latency := None;
              status := "timeout" |}.
Proof. apply query_master_times_out. Qed.

Lemma no_response_resolves_timeout_witness :
  query_master "master2" addr1 net_late 1
  = Return {| name := "master2"; server_count := None; latency := None;
              status := "timeout" |}.
Proof.
  apply (no_response_resolves_timeout "master2" addr1 net_late 1).
  - reflexivity.
  - reflexivity.
  - constructor; [intros _; reflexivity|].
    constructor; [|constructor].
    unfold before_deadline, Qlt. simpl. lia.
Defined.

(** ** The future of a session is assigned once *)

Lemma deliver_live ev s : live (session_waiter s) -> live (session_waiter (deliver ev s)).
Proof.
  intros Hl. destruct (done (session_waiter s)) eqn:Hd.
  { unfold session_waiter in *. by rewrite deliver_done. }
  unfold session_waiter, response in *.
  destruct (waiter (protocol (endpoint s))) eqn:Hw; try discriminate.
  unfold deliver. destruct (closed _); [by rewrite Hw|].
  destruct (call ev) as [data|exc]; rewrite endpoint_run_callback.
  - unfold datagram_received. destruct (_ || _); [by simpl; rewrite Hw|].
    unfold bind, get_time_start, lift, get, set_waiter.
    destruct (time_start (protocol (endpoint s))); [|by simpl; rewrite Hw].
    destruct (unpack_H _); [|by simpl; rewrite Hw].
    rewrite Hw. simpl. by eexists _, _.
  - unfold error_received, bind, lift, get, set_waiter. by rewrite Hw.
Qed.

Lemma wait_for_keeps timeout now evs s :
  transport (endpoint (fst (snd (wait_for timeout now evs s)))) = transport (endpoint s).
Proof.
  revert s. induction evs as [|ev evs IH]; intros s; simpl;
    destruct (done (session_waiter s)); try done.
  destruct (Qle_bool _ _); [done|]. rewrite IH. apply deliver_keeps.
Qed.

(** When [wait_for] returns, the future is done, and what [wait_for]
    returns or raises is what the future holds. *)
Lemma wait_for_resolves timeout now evs s :
  live (session_waiter s) ->
  match session_waiter (fst (snd (wait_for timeout now evs s))) with
  | Finished info =>
      fst (wait_for timeout now evs s) = Return info
      /\ exists n lat, info = info_of n lat
  | Failed e => fst (wait_for timeout now evs s) = Raise e
  | Cancelled => fst (wait_for timeout now evs s) = Raise TimeoutError
  | Pending => False
  end.
Proof.
  revert s. induction evs as [|ev evs IH]; intros s Hl.
  - simpl. destruct (session_waiter s) eqn:Hw; simpl; rewrite ?Hw; try done.
    unfold session_waiter at 1, response; simpl. by rewrite Hw.
  - simpl. destruct (session_waiter s) eqn:Hw; simpl; rewrite ?Hw; try done.
    destruct (Qle_bool _ _).
    + simpl. unfold session_waiter at 1, response; simpl. by rewrite Hw.
    + apply IH, deliver_live. by rewrite Hw.
Qed.

Lemma deliver_all_waiter more s :
  done (session_waiter s) = true -> session_waiter (deliver_all more s) = session_waiter s.
Proof. intros Hd. unfold session_waiter. by rewrite deliver_all_done. Qed.

Lemma live_created addr net s :
  create_datagram_endpoint addr net = Return s -> live (session_waiter s).
Proof.
  unfold create_datagram_endpoint. destruct (create_error net); [done|].
  intros [= <-]. by destruct (send_error net).
Qed.

(** C7: a query session produces exactly one status.  [query_master]
    returns one MasterInfo, whose status is ok, timeout or error; when it
    returns, the future of the session is done, a result in it is the one
    returned, and no datagram or error delivered afterwards changes it. *)
Theorem session_resolves_exactly_once nm addr net timeout :
  exists masterinfo,
    query_master nm addr net timeout = Return masterinfo
    /\ (status masterinfo = "ok" \/ status masterinfo = "timeout"
        \/ status masterinfo = "error")
    /\ match snd (query_master_run nm addr net timeout) with
       | Some (s, rest) =>
           done (session_waiter s) = true
           /\ (forall info, session_waiter s = Finished info ->
                 masterinfo = with_name info nm)
           /\ forall more, session_waiter (deliver_all more s) = session_waiter s
       | None => create_error net <> None
       end.
Proof.
  rewrite query_master_of_try. unfold query_master_run. cbn [snd].
  destruct (create_error net) as [e|] eqn:Hc.
  - unfold query_master_try, create_datagram_endpoint. rewrite Hc. cbn [fst snd].
    eexists. split; [done|]. split; [|done].
    destruct (decide (e = TimeoutError)); simpl; auto.
  - destruct (create_datagram_endpoint_created addr net Hc) as (s & Hcr & _).
    rewrite (query_master_try_created _ _ _ _ Hcr). cbn [fst snd].
    pose proof (wait_for_resolves timeout (wait_from net) (events net) s
                  (live_created _ _ _ Hcr)) as Hres.
    destruct (wait_for timeout (wait_from net) (events net) s) as [r [s' rest]].
    cbn [fst snd] in *.
    destruct (session_waiter s') as [|info|e|] eqn:Hw; [done|..].
    + destruct Hres as [-> (n & lat & ->)]. eexists. split; [done|]. split; [by left|].
      split; [done|]. split; [by intros ? [= <-]|].
      intros more. rewrite deliver_all_waiter; by rewrite ?Hw.
    + rewrite Hres. eexists. split; [done|].
      split; [destruct (decide (e = TimeoutError)); simpl; auto|].
      split; [done|]. split; [done|].
      intros more. rewrite deliver_all_waiter; by rewrite ?Hw.
    + rewrite Hres. eexists. split; [done|]. split; [simpl; auto|].
      split; [done|]. split; [done|].
      intros more. rewrite deliver_all_waiter; by rewrite ?Hw.
Qed.

(** C9 as stated fails: the session of [net_ok] has resolved to ok, and its
    transport is not closed, neither when [query_master] returns nor after
    the datagram that comes later. *)
Lemma resolved_session_holds_transport :
  query_master "master1" addr1 net_ok 1
  = Return {| name := "master1"; server_count := Some 120;
              latency := Some ((1003 # 10) - 100)%Q; status := "ok" |}
  /\ exists s rest,
       snd (query_master_run "master1" addr1 net_ok 1) = Some (s, rest)
       /\ closed (transport (endpoint s)) = false
       /\ closed (transport (endpoint (deliver_all rest s))) = false.
Proof. split; [reflexivity|]. eexists _, _. split; [reflexivity|]. by split. Qed.

(** C9, amended: [query_master] never closes the transport.  On every path
    on which the endpoint was created (ok, timeout, error), the transport
    is open when the session has resolved and stays open whatever the loop
    delivers afterwards; only when the creation of the endpoint raises
    does the session hold no transport. *)
Theorem transport_never_closed nm addr net timeout :
  match create_error net, snd (query_master_run nm addr net timeout) with
  | None, Some (s, rest) =>
      closed (transport (endpoint s)) = false
      /\ forall more, closed (transport (endpoint (deliver_all more s))) = false
  | Some _, None => True
  | _, _ => False
  end.
Proof.
  unfold query_master_run. cbn [snd].
  destruct (create_error net) as [e|] eqn:Hc.
  - unfold query_master_try, create_datagram_endpoint. by rewrite Hc.
  - destruct (create_datagram_endpoint_created addr net Hc) as (s & Hcr & Htr & _).
    rewrite (query_master_try_created _ _ _ _ Hcr). cbn [snd].
    pose proof (wait_for_keeps timeout (wait_from net) (events net) s) as Hk.
    destruct (wait_for timeout (wait_from net) (events net) s) as [r [s' rest]].
    cbn [fst snd] in Hk. rewrite Htr in Hk. split; [by rewrite Hk|].
    intros more. destruct (deliver_all_keeps more s') as [-> _]. by rewrite Hk.
Qed.

(** C10 as stated fails for payload length 0: the datagram that is the
    prefix alone has the prefix as its first 14 bytes and is not 16 bytes
    long, yet it does not pass the filter, and the handler returns without
    raising. *)
Lemma prefix_alone_is_discarded :
  take 14 packet_count_response = packet_count_response
  /\ length packet_count_response <> 16%nat
  /\ is_match packet_count_response = false
  /\ forall now ep, datagram_received packet_count_response now ep = (Return tt, ep).
Proof.
  split; [reflexivity|]. split; [discriminate|]. split; [reflexivity|].
  intros now ep. by apply datagram_received_no_match.
Qed.

(** C10, amended: a datagram that starts with the response prefix, is
    longer than 14 bytes and is not 16 bytes long (a payload of 1 byte or
    of 3 and more) passes the filter, and the decoding raises
    [struct.error] inside the handler.  The objects of the session are as
    before, the loop's exception handler gets the exception, and the
    session keeps waiting for the events that follow.  The datagram that
    is the prefix alone does not pass the filter and is discarded without
    an exception. *)
Theorem malformed_response_raises data t t0 s timeout now rest :
  startswith data packet_count_response = true ->
  (14 < length data)%nat ->
  length data <> 16%nat ->
  closed (transport (endpoint s)) = false ->
  time_start (protocol (endpoint s)) = Some t0 ->
  session_waiter s = Pending ->
  (t < now + timeout)%Q ->
  is_match data = true
  /\ datagram_received data t (endpoint s) = (Raise struct_error, endpoint s)
  /\ deliver {| at_time := t; call := DatagramReceived data |} s
     = {| endpoint := endpoint s; unhandled := unhandled s ++ [struct_error] |}
  /\ wait_for timeout now ({| at_time := t; call := DatagramReceived data |} :: rest) s
     = wait_for timeout now rest
         {| endpoint := endpoint s; unhandled := unhandled s ++ [struct_error] |}
  /\ datagram_received packet_count_response t (endpoint s) = (Return tt, endpoint s).
Proof.
  intros Hsw Hlong Hlen Hc Ht Hw Hbefore.
  assert (Hm : is_match data = true).
  { unfold is_match. rewrite Hsw, length_packet_count_response, andb_true_r.
    by apply Nat.ltb_lt. }
  assert (Hraise : datagram_received data t (endpoint s) = (Raise struct_error, endpoint s))
    by by apply (datagram_received_struct_error data t (endpoint s) t0).
  assert (Hdel : deliver {| at_time := t; call := DatagramReceived data |} s
                 = {| endpoint := endpoint s; unhandled := unhandled s ++ [struct_error] |}).
  { unfold deliver. rewrite Hc. cbn [call at_time]. unfold run_callback. by rewrite Hraise. }
  split; [done|]. split; [done|]. split; [done|]. split.
  - rewrite wait_for_step; [by rewrite Hdel | by rewrite Hw | done].
  - by apply datagram_received_no_match.
Qed.

Lemma malformed_response_raises_witness :
  is_match (packet_count_response ++ [x00; x01; x02]) = true
  /\ datagram_received (packet_count_response ++ [x00; x01; x02]) (1002 # 10)%Q
       (endpoint session_waiting)
     = (Raise struct_error, endpoint session_waiting)
  /\ deliver malformed session_waiting
     = {| endpoint := endpoint session_waiting;
          unhandled := unhandled session_waiting ++ [struct_error] |}
  /\ wait_for 1 100 [malformed] session_waiting
     = wait_for 1 100 []
         {| endpoint := endpoint session_waiting;
            unhandled := unhandled session_waiting ++ [struct_error] |}
  /\ datagram_received packet_count_response (1002 # 10)%Q (endpoint session_waiting)
     = (Return tt, endpoint session_waiting).
Proof.
  apply (malformed_response_raises (packet_count_response ++ [x00; x01; x02])
           (1002 # 10)%Q 100%Q session_waiting 1%Q 100%Q []).
  - reflexivity.
  - simpl. lia.
  - discriminate.
  - reflexivity.
  - reflexivity.
  - reflexivity.
  - reflexivity.
Defined.

(** C5 as stated fails for an exception of the receive path: in the session
    of [net_malformed] the decoding raises [struct.error] inside
    [datagram_received]; the exception goes to the loop's exception
    handler, not to the [try] statement, and the session resolves to
    timeout, not to error. *)
Lemma decode_failure_is_not_status_error :
  (exists s rest,
     snd (query_master_run "master1" addr1 net_malformed 1) = Some (s, rest)
     /\ unhandled s = [struct_error])
  /\ query_master "master1" addr1 net_malformed 1
     = Return {| name := "master1"; server_count := None; latency := None;
                 status := "timeout" |}.
Proof. split; [|reflexivity]. eexists _, _. split; reflexivity. Qed.

(** ** Exceptions that reach the [try] block *)

(** The creation of the endpoint raises. *)
Lemma try_raises_create addr net timeout e :
  create_error net = Some e -> fst (query_master_try addr net timeout) = Raise e.
Proof. intros Hc. unfold query_master_try, create_datagram_endpoint. by rewrite Hc. Qed.

(** The socket refuses the request: the future has the exception before
    [wait_for] starts. *)
Lemma try_raises_send addr net timeout e :
  create_error net = None -> send_error net = Some e ->
  fst (query_master_try addr net timeout) = Raise e.
Proof.
  intros Hc Hs.
  destruct (create_datagram_endpoint_created addr net Hc) as (s & Hcr & _ & _ & Hw).
  rewrite Hs in Hw. rewrite (query_master_try_created _ _ _ _ Hcr). cbn [fst].
  rewrite wait_for_done; by rewrite Hw.
Qed.

(** The transport reports an error while the session waits. *)
Lemma try_raises_error_received addr net timeout pre t e post :
  create_error net = None -> send_error net = None ->
  events net = pre ++ {| at_time := t; call := ErrorReceived e |} :: post ->
  Forall (fun ev => before_deadline timeout (wait_from net) ev /\ discarded ev) pre ->
  (t < wait_from net + timeout)%Q ->
  fst (query_master_try addr net timeout) = Raise e.
Proof.
  intros Hc Hs Hev Hpre Ht.
  destruct (create_datagram_endpoint_created addr net Hc) as (s & Hcr & Htr & _ & Hw).
  rewrite Hs in Hw. rewrite (query_master_try_created _ _ _ _ Hcr). cbn [fst].
  rewrite Hev, wait_for_discarded by (done || by rewrite Hw).
  rewrite wait_for_step by (done || by rewrite Hw).
  assert (Hf : session_waiter (deliver {| at_time := t; call := ErrorReceived e |} s)
               = Failed e).
  { unfold deliver. rewrite Htr. cbn [closed call].
    unfold session_waiter, response in *. rewrite endpoint_run_callback.
    unfold error_received, bind, lift, get, set_waiter. by rewrite Hw. }
  rewrite wait_for_done; by rewrite Hf.
Qed.

(** ** sorted *)

Lemma ltb_true_le x y : String.ltb x y = true -> String.le x y.
Proof.
  unfold String.le, String.ltb, String.leb.
  by destruct (String.compare x y).
Qed.

Lemma ltb_false_le x y : String.ltb x y = false -> String.le y x.
Proof.
  unfold String.le, String.ltb, String.leb. rewrite (String.compare_antisym x y).
  by destruct (String.compare y x).
Qed.

Lemma le_ne_ltb x y : String.le x y -> x <> y -> String.ltb x y = true.
Proof.
  unfold String.le, String.ltb, String.leb. intros Hle Hne.
  destruct (String.compare x y) eqn:Hc; [|done..].
  by apply String.compare_eq_iff in Hc.
Qed.

Section sorted.
Context {A : Type} (key : A -> string).

Lemma insort_Permutation x l : insort key x l ≡ₚ x :: l.
Proof.
  induction l as [|y l IH]; simpl; [done|].
  destruct (String.ltb (key x) (key y)); [done|].
  rewrite IH. apply perm_swap.
Qed.

Lemma insort_sorted x l :
  StronglySorted (key_le key) l -> StronglySorted (key_le key) (insort key x l).
Proof.
  induction 1 as [|y l Hl IH Hy]; simpl; [repeat constructor|].
  destruct (String.ltb (key x) (key y)) eqn:Hlt.
  - apply ltb_true_le in Hlt. constructor; [by constructor|].
    constructor; [done|].
    eapply Forall_impl; [exact Hy|]. intros z Hz. unfold key_le in *. by etrans.
  - apply ltb_false_le in Hlt. constructor; [done|].
    rewrite insort_Permutation. by constructor.
Qed.

Lemma sorted_from_Permutation acc l :
  foldl (fun acc x => insort key x acc) acc l ≡ₚ acc ++ l.
Proof.
  revert acc. induction l as [|x l IH]; intros acc; simpl.
  - by rewrite app_nil_r.
  - rewrite IH, insort_Permutation. simpl. apply Permutation_middle.
Qed.

Lemma sorted_from_sorted acc l :
  StronglySorted (key_le key) acc ->
  StronglySorted (key_le key) (foldl (fun acc x => insort key x acc) acc l).
Proof.
  revert acc. induction l as [|x l IH]; intros acc Hacc; simpl; [done|].
  by apply IH, insort_sorted.
Qed.

Lemma sorted_Permutation l : sorted key l ≡ₚ l.
Proof. unfold sorted. by rewrite sorted_from_Permutation. Qed.

Lemma sorted_sorted l : StronglySorted (key_le key) (sorted key l).
Proof. apply sorted_from_sorted. constructor. Qed.

Lemma NoDup_key_inj l x1 x2 :
  NoDup (key <$> l) -> x1 ∈ l -> x2 ∈ l -> key x1 = key x2 -> x1 = x2.
Proof.
  induction l as [|a l IH]; [by intros _ ?%elem_of_nil|].
  rewrite fmap_cons, NoDup_cons. intros [Ha Hl] H1 H2 Hk.
  apply elem_of_cons in H1 as [->|H1]; apply elem_of_cons in H2 as [->|H2]; auto.
  - destruct Ha. rewrite Hk. by apply list_elem_of_fmap_2.
  - destruct Ha. rewrite <- Hk. by apply list_elem_of_fmap_2.
Qed.

(** With keys that are all different, the sorted list does not depend
    on the order of the input. *)
Lemma sorted_order_independent l1 l2 :
  NoDup (key <$> l1) -> l1 ≡ₚ l2 -> sorted key l1 = sorted key l2.
Proof.
  intros Hnd Hp.
  apply (StronglySorted_unique_strong (key_le key)); [|apply sorted_sorted..|].
  - intros x1 x2 H1 H2 H12 H21.
    rewrite sorted_Permutation in H1. rewrite sorted_Permutation, <- Hp in H2.
    apply (NoDup_key_inj l1); [done..|].
    by apply (anti_symm String.le).
  - by rewrite !sorted_Permutation.
Qed.

(** With keys that are all different, the keys of the sorted list
    ascend strictly. *)
Lemma sorted_keys_ascend l :
  NoDup (key <$> l) ->
  StronglySorted (fun a b => String.ltb a b = true) (key <$> sorted key l).
Proof.
  intros Hnd. rewrite <- (sorted_Permutation l) in Hnd.
  pose proof (sorted_sorted l) as Hs.
  induction Hs as [|x k Hk IH Hx]; simpl; [constructor|].
  rewrite fmap_cons in Hnd. apply NoDup_cons in Hnd as [Hx' Hnd].
  constructor; [by apply IH|].
  apply Forall_fmap, Forall_forall. intros z Hz. simpl.
  apply le_ne_ltb.
  - rewrite Forall_forall in Hx. by apply Hx.
  - intros Heq. apply Hx'. rewrite Heq. by apply list_elem_of_fmap_2.
Qed.
End sorted.

(** ** update *)

Lemma query_master_returns nm addr net timeout :
  query_master nm addr net timeout = Return (resolved nm addr net timeout).
Proof.
  rewrite query_master_of_try. unfold resolved.
  by destruct (fst (query_master_try addr net timeout)).
Qed.

Lemma name_resolved nm addr net timeout : name (resolved nm addr net timeout) = nm.
Proof.
  unfold resolved. destruct (fst (query_master_try addr net timeout)); [done|].
  by destruct (decide _).
Qed.

Lemma task_results_Return {A} (l : list A) : task_results (Return <$> l) = Return l.
Proof. induction l as [|a l IH]; csimpl; [done|]. by rewrite IH. Qed.

Lemma omap_lookup_fmap {A B} (f : A -> B) (l : list A) (order : list nat) :
  omap (fun i => (f <$> l) !! i) order = f <$> omap (fun i => l !! i) order.
Proof.
  induction order as [|i order IH]; csimpl; [done|].
  rewrite list_lookup_fmap, IH. by destruct (l !! i).
Qed.

Lemma omap_lookup_seq {A} (l : list A) (k : nat) :
  omap (fun i => l !! i) (seq k (length l - k)) = drop k l.
Proof.
  revert k. induction l as [|x l IH]; intros k; [by destruct k|].
  destruct k as [|k]; csimpl.
  - f_equal. rewrite <- fmap_S_seq.
    specialize (IH 0%nat). rewrite Nat.sub_0_r, drop_0 in IH. rewrite <- IH at 2.
    generalize (seq 0 (length l)). intros js.
    induction js as [|j js IHjs]; csimpl; [done|]. by rewrite IHjs.
  - rewrite <- (IH k), <- !fmap_S_seq.
    generalize (seq k (length l - k)). intros js.
    induction js as [|j js IHjs]; csimpl; [done|]. by rewrite IHjs.
Qed.

Lemma omap_lookup_Permutation {A} (l : list A) (order : list nat) :
  order ≡ₚ seq 0 (length l) -> omap (fun i => l !! i) order ≡ₚ l.
Proof.
  intros ->. pose proof (omap_lookup_seq l 0) as H.
  by rewrite Nat.sub_0_r, drop_0 in H; rewrite H.
Qed.

Lemma done_of_picked registry c : done_of registry c = Return <$> picked_of registry c.
Proof.
  assert (Hres : (fun item : string * Address =>
                    query_master (fst item) (snd item) (network c (fst item))
                      default_timeout) <$> map_to_list registry
                 = Return <$> results_of registry c).
  { unfold results_of. rewrite <- list_fmap_compose.
    apply list_fmap_ext. intros _ item _. apply query_master_returns. }
  unfold done_of, picked_of. rewrite Hres. apply omap_lookup_fmap.
Qed.

Lemma masterinfos_of_picked registry c :
  masterinfos_of registry c = Return (sorted name (picked_of registry c)).
Proof. unfold masterinfos_of. by rewrite done_of_picked, task_results_Return. Qed.

Lemma picked_Permutation registry c :
  done_order c ≡ₚ seq 0 (size registry) -> picked_of registry c ≡ₚ results_of registry c.
Proof.
  intros Hp. apply omap_lookup_Permutation.
  unfold results_of. by rewrite length_fmap, length_map_to_list.
Qed.

Lemma names_results registry c : name <$> results_of registry c = (map_to_list registry).*1.
Proof.
  unfold results_of. rewrite <- list_fmap_compose.
  apply list_fmap_ext. intros _ item _. apply name_resolved.
Qed.

Lemma results_same_network registry c c' :
  (forall nm, network c' nm = network c nm) -> results_of registry c' = results_of registry c.
Proof.
  intros Hn. unfold results_of. apply list_fmap_ext. intros _ item _. by rewrite Hn.
Qed.

Lemma resolved_in_results registry c nm addr :
  registry !! nm = Some addr ->
  resolved nm addr (network c nm) default_timeout ∈ results_of registry c.
Proof.
  intros Hl. unfold results_of.
  apply (list_elem_of_fmap_2
           (fun item : string * Address =>
              resolved (fst item) (snd item) (network c (fst item)) default_timeout)
           _ (nm, addr)).
  by apply elem_of_map_to_list.
Qed.

(** What [query_master] returns has one of three shapes. *)
Lemma resolved_shape nm addr net timeout :
  (exists n lat, resolved nm addr net timeout = ok_info nm n lat)
  \/ resolved nm addr net timeout = timeout_info nm
  \/ resolved nm addr net timeout = error_info nm.
Proof.
  unfold resolved. destruct (create_error net) as [e|] eqn:Hc.
  - rewrite (try_raises_create _ _ _ _ Hc). destruct (decide _); auto.
  - destruct (create_datagram_endpoint_created addr net Hc) as (s & Hcr & _).
    rewrite (query_master_try_created _ _ _ _ Hcr). cbn [fst].
    pose proof (wait_for_resolves timeout (wait_from net) (events net) s
                  (live_created _ _ _ Hcr)) as Hres.
    destruct (session_waiter _) as [|info|e|]; [done|..].
    + destruct Hres as [-> (n & lat & ->)]. left. by exists n, lat.
    + rewrite Hres. destruct (decide _); auto.
    + rewrite Hres. auto.
Qed.

Lemma elem_of_picked registry c masterinfo :
  masterinfo ∈ picked_of registry c -> masterinfo ∈ results_of registry c.
Proof.
  unfold picked_of. rewrite list_elem_of_omap. intros (i & _ & Hi).
  by eapply list_elem_of_lookup_2.
Qed.

(** [update] raises only what opening the file raises. *)
Lemma update_of_written registry c file :
  open_error c = None ->
  update_of registry c file
  = (Return tt, html_print (sorted name (picked_of registry c))).
Proof.
  intros Ho. unfold update_of. rewrite Ho, masterinfos_of_picked. reflexivity.
Qed.

(** ** One pass of [update] *)

Lemma size_masters : size masters = 5%nat.
Proof. reflexivity. Qed.

Lemma done_order_cycle1 : done_order cycle1 ≡ₚ seq 0 (size masters).
Proof.
  rewrite size_masters. simpl.
  apply NoDup_Permutation.
  - apply (bool_decide_unpack _). by vm_compute.
  - apply (bool_decide_unpack _). by vm_compute.
  - intros i. rewrite !elem_of_cons, !elem_of_nil. tauto.
Qed.

Lemma done_order_cycle2 : done_order cycle2 ≡ₚ seq 0 (size masters).
Proof. by rewrite size_masters. Qed.

(** C1: for a registry of N endpoints, the snapshot of one pass of
    [update] has exactly N entries, every name of the registry is the name
    of exactly one entry, the names ascend lexicographically, and the
    snapshot is the same whatever the order in which the sessions are
    handed over by [asyncio.wait]. *)
Theorem snapshot_complete_and_sorted registry c c' :
  done_order c ≡ₚ seq 0 (size registry) ->
  done_order c' ≡ₚ seq 0 (size registry) ->
  (forall nm, network c' nm = network c nm) ->
  exists snapshot,
    masterinfos_of registry c = Return snapshot
    /\ length snapshot = size registry
    /\ NoDup (name <$> snapshot)
    /\ (forall nm, nm ∈ name <$> snapshot <-> is_Some (registry !! nm))
    /\ StronglySorted (fun a b => String.ltb a b = true) (name <$> snapshot)
    /\ masterinfos_of registry c' = Return snapshot.
Proof.
  intros Hp Hp' Hnet. exists (sorted name (picked_of registry c)).
  assert (Hnames : name <$> sorted name (picked_of registry c)
                   ≡ₚ (map_to_list registry).*1).
  { by rewrite sorted_Permutation, picked_Permutation, names_results. }
  assert (Hnd : NoDup (name <$> picked_of registry c)).
  { rewrite picked_Permutation, names_results by done. apply NoDup_fst_map_to_list. }
  split; [apply masterinfos_of_picked|].
  split; [|split; [|split; [|split]]].
  - rewrite <- (length_fmap name), Hnames, length_fmap. apply length_map_to_list.
  - rewrite Hnames. apply NoDup_fst_map_to_list.
  - intros nm. rewrite Hnames, list_elem_of_fmap. split.
    + intros ([nm' addr] & -> & Hin). apply elem_of_map_to_list in Hin. by eexists.
    + intros [addr Hl]. exists (nm, addr). split; [done|]. by apply elem_of_map_to_list.
  - by apply sorted_keys_ascend.
  - rewrite masterinfos_of_picked. f_equal. apply sorted_order_independent.
    + by rewrite picked_Permutation, (results_same_network _ _ _ Hnet),
        <- picked_Permutation.
    + by rewrite !picked_Permutation, (results_same_network _ _ _ Hnet).
Qed.

Lemma snapshot_complete_and_sorted_witness :
  exists snapshot,
    masterinfos_of masters cycle1 = Return snapshot
    /\ length snapshot = size masters
    /\ NoDup (name <$> snapshot)
    /\ (forall nm, nm ∈ name <$> snapshot <-> is_Some (masters !! nm))
    /\ StronglySorted (fun a b => String.ltb a b = true) (name <$> snapshot)
    /\ masterinfos_of masters cycle2 = Return snapshot.
Proof.
  apply (snapshot_complete_and_sorted masters cycle1 cycle2).
  - exact done_order_cycle1.
  - exact done_order_cycle2.
  - reflexivity.
Defined.

(** The snapshot of [cycle1], computed. *)
Example snapshot_cycle1 :
  masterinfos_of masters cycle1
  = Return [ {| name := "master1"; server_count := Some 120;
                latency := Some ((1003 # 10) - 100)%Q; status := "ok" |};
             {| name := "master2"; server_count := None; latency := None;
                status := "timeout" |};
             {| name := "master3"; server_count := None; latency := None;
                status := "timeout" |};
             {| name := "master4"; server_count := None; latency := None;
                status := "error" |};
             {| name := "website"; server_count := None; latency := None;
                status := "error" |} ].
Proof. vm_compute. reflexivity. Qed.

(** ** Exceptions and the snapshot *)

(** C5, amended: every exception that reaches the [try] block of
    [query_master] (raised by the creation of the endpoint, or put into the
    awaited future by [error_received] for a failure of the transport) is
    caught there and becomes a MasterInfo with the name of the endpoint,
    with status error, or timeout when the exception is
    [asyncio.TimeoutError]; [query_master] raises nothing, and [update]
    still has a full snapshot with that endpoint and writes it. *)
Theorem session_exceptions_contained registry c nm addr e file :
  registry !! nm = Some addr ->
  done_order c ≡ₚ seq 0 (size registry) ->
  open_error c = None ->
  fst (query_master_try addr (network c nm) default_timeout) = Raise e ->
  query_master nm addr (network c nm) default_timeout
  = Return {| name := nm; server_count := None; latency := None;
              status := if decide (e = TimeoutError) then "timeout" else "error" |}
  /\ exists snapshot,
       masterinfos_of registry c = Return snapshot
       /\ length snapshot = size registry
       /\ {| name := nm; server_count := None; latency := None;
             status := if decide (e = TimeoutError) then "timeout" else "error" |}
          ∈ snapshot
       /\ update_of registry c file = (Return tt, html_print snapshot).
Proof.
  intros Hl Hp Ho He.
  assert (Hres : resolved nm addr (network c nm) default_timeout
                 = {| name := nm; server_count := None; latency := None;
                      status := if decide (e = TimeoutError) then "timeout"
                                else "error" |}).
  { unfold resolved. rewrite He. by destruct (decide _). }
  split; [by rewrite query_master_returns, Hres|].
  exists (sorted name (picked_of registry c)).
  split; [apply masterinfos_of_picked|]. split; [|split].
  - by rewrite sorted_Permutation, picked_Permutation, <- (length_fmap name),
      names_results, length_fmap, length_map_to_list.
  - rewrite sorted_Permutation, picked_Permutation, <- Hres by done.
    by apply resolved_in_results.
  - by apply update_of_written.
Qed.

Lemma session_exceptions_contained_witness :
  query_master "website" ("teeworlds.com", 8300) (network cycle1 "website") default_timeout
  = Return {| name := "website"; server_count := None; latency := None;
              status := if decide (gaierror (-2) = TimeoutError) then "timeout"
                        else "error" |}
  /\ exists snapshot,
       masterinfos_of masters cycle1 = Return snapshot
       /\ length snapshot = size masters
       /\ {| name := "website"; server_count := None; latency := None;
             status := if decide (gaierror (-2) = TimeoutError) then "timeout"
                       else "error" |}
          ∈ snapshot
       /\ update_of masters cycle1 [] = (Return tt, html_print snapshot).
Proof.
  apply (session_exceptions_contained masters cycle1 "website" ("teeworlds.com", 8300)
           (gaierror (-2)) []).
  - reflexivity.
  - exact done_order_cycle1.
  - reflexivity.
  - reflexivity.
Defined.

(** ** html_print *)

(** The row of an entry without a server count: the name, the status
    label, and two dashes. *)
Lemma html_row_no_count masterinfo :
  server_count masterinfo = None ->
  html_row masterinfo
  = "<tr><td>" +:+ name masterinfo +:+ "</td><td>" +:+ status masterinfo
    +:+ "</td><td>-</td><td>-</td></tr>".
Proof. intros Hn. unfold html_row. by rewrite Hn. Qed.

(** The row of an entry with a count and a latency that are not zero. *)
Lemma html_row_numbers masterinfo servers lat :
  server_count masterinfo = Some servers -> servers <> 0 ->
  latency masterinfo = Some lat -> ~ (lat == 0)%Q ->
  html_row masterinfo
  = "<tr><td>" +:+ name masterinfo +:+ "</td><td>" +:+ status masterinfo
    +:+ "</td><td>" +:+ pretty servers
    +:+ "</td><td>" +:+ format_0f (lat * 1000)%Q +:+ "ms</td></tr>".
Proof.
  intros Hs Hs0 Hl Hl0. unfold html_row, falsy. rewrite Hs, Hl.
  assert (Hq : Qeq_bool 0 lat = false).
  { destruct (Qeq_bool 0 lat) eqn:Hq; [|done].
    apply Qeq_bool_iff in Hq. destruct Hl0. by symmetry. }
  rewrite Hq. by destruct servers.
Qed.

(** C6: the code breaks the property for an entry with status ok and
    count 0.  The session of [net_zero] is answered with the payload 00 00
    and resolves to ok with 0 servers; the test of [html_print], [not x],
    holds for the number 0 as it does for [None], and the row has two
    dashes where the property has the count 0 and the latency. *)
Lemma zero_count_rendered_as_absent :
  query_master "master1" addr1 net_zero 1
  = Return {| name := "master1"; server_count := Some 0;
              latency := Some ((1003 # 10) - 100)%Q; status := "ok" |}
  /\ html_row {| name := "master1"; server_count := Some 0;
                 latency := Some ((1003 # 10) - 100)%Q; status := "ok" |}
     = "<tr><td>master1</td><td>ok</td><td>-</td><td>-</td></tr>".
Proof. split; reflexivity. Qed.

(** Away from zero the rows are as they should be: every entry of a
    snapshot of [update] either has status ok, and its row shows the name,
    the label ok, the server count and the latency whenever the count and
    the latency are not zero; or it has status timeout or error, and its
    row shows the name, the status label and two dashes. *)
Theorem snapshot_rows registry c snapshot masterinfo :
  masterinfos_of registry c = Return snapshot ->
  masterinfo ∈ snapshot ->
  (status masterinfo = "ok"
   /\ exists servers lat,
        server_count masterinfo = Some servers
        /\ latency masterinfo = Some lat
        /\ (servers <> 0 -> ~ (lat == 0)%Q ->
            html_row masterinfo
            = "<tr><td>" +:+ name masterinfo +:+ "</td><td>" +:+ status masterinfo
              +:+ "</td><td>" +:+ pretty servers
              +:+ "</td><td>" +:+ format_0f (lat * 1000)%Q +:+ "ms</td></tr>"))
  \/ ((status masterinfo = "timeout" \/ status masterinfo = "error")
      /\ html_row masterinfo
         = "<tr><td>" +:+ name masterinfo +:+ "</td><td>" +:+ status masterinfo
           +:+ "</td><td>-</td><td>-</td></tr>").
Proof.
  rewrite masterinfos_of_picked. intros [= <-] Hin.
  rewrite sorted_Permutation in Hin. apply elem_of_picked in Hin.
  unfold results_of in Hin. apply list_elem_of_fmap in Hin as ([nm addr] & -> & _).
  cbn [fst snd].
  destruct (resolved_shape nm addr (network c nm) default_timeout)
    as [(n & lat & ->) | [-> | ->]].
  - left. split; [done|]. exists n, lat. split; [done|]. split; [done|].
    intros Hn Hlat. by apply (html_row_numbers _ n lat).
  - right. split; [by left|]. by apply html_row_no_count.
  - right. split; [by right|]. by apply html_row_no_count.
Qed.

Lemma snapshot_rows_witness :
  (status (ok_info "master1" 120 ((1003 # 10) - 100)%Q) = "ok"
   /\ exists servers lat,
        server_count (ok_info "master1" 120 ((1003 # 10) - 100)%Q) = Some servers
        /\ latency (ok_info "master1" 120 ((1003 # 10) - 100)%Q) = Some lat
        /\ (servers <> 0 -> ~ (lat == 0)%Q ->
            html_row (ok_info "master1" 120 ((1003 # 10) - 100)%Q)
            = "<tr><td>" +:+ name (ok_info "master1" 120 ((1003 # 10) - 100)%Q)
              +:+ "</td><td>" +:+ status (ok_info "master1" 120 ((1003 # 10) - 100)%Q)
              +:+ "</td><td>" +:+ pretty servers
              +:+ "</td><td>" +:+ format_0f (lat * 1000)%Q +:+ "ms</td></tr>"))
  \/ ((status (ok_info "master1" 120 ((1003 # 10) - 100)%Q) = "timeout"
       \/ status (ok_info "master1" 120 ((1003 # 10) - 100)%Q) = "error")
      /\ html_row (ok_info "master1" 120 ((1003 # 10) - 100)%Q)
         = "<tr><td>" +:+ name (ok_info "master1" 120 ((1003 # 10) - 100)%Q)
           +:+ "</td><td>" +:+ status (ok_info "master1" 120 ((1003 # 10) - 100)%Q)
           +:+ "</td><td>-</td><td>-</td></tr>").
Proof.
  apply (snapshot_rows masters cycle1
           [ ok_info "master1" 120 ((1003 # 10) - 100)%Q;
             timeout_info "master2"; timeout_info "master3";
             error_info "master4"; error_info "website" ]).
  - exact snapshot_cycle1.
  - apply list_elem_of_here.
Defined.

(** The rows of the snapshot of [cycle1], computed. *)
Example rows_cycle1 :
  html_row <$> [ ok_info "master1" 120 ((1003 # 10) - 100)%Q;
                 timeout_info "master2"; error_info "website" ]
  = [ "<tr><td>master1</td><td>ok</td><td>120</td><td>300ms</td></tr>";
      "<tr><td>master2</td><td>timeout</td><td>-</td><td>-</td></tr>";
      "<tr><td>website</td><td>error</td><td>-</td><td>-</td></tr>" ].
Proof. reflexivity. Qed.

(** ** main *)

Lemma written_picked c : written c = html_print (sorted name (picked_of masters c)).
Proof. unfold written. by rewrite masterinfos_of_picked. Qed.


(** The loop has no way out but an exception. *)
Lemma main_loop_never_returns fuel world k file :
  snd (fst (main_loop fuel world k file)) <> Returned.
Proof.
  revert k file. induction fuel as [|fuel IH]; intros k file; [done|].
  cbn [main_loop]. destruct (update (world k) file) as [[[]|e] file']; [|done].
  specialize (IH (S k) file').
  by destruct (main_loop fuel world (S k) file') as [[trace out] file''].
Qed.



(** * Further properties of the code *)

(** ** What a session sends *)

(** X1: a session sends one datagram and no more: the request packet, in
    [connection_made].  Whatever arrives, and however the session
    resolves, nothing else is ever handed to [sendto]: there is no
    retry. *)
Theorem one_request_per_session nm addr net timeout :
  create_error net = None ->
  exists s rest,
    snd (query_master_run nm addr net timeout) = Some (s, rest)
    /\ sent (transport (endpoint s)) = [packet_count_request]
    /\ forall more,
         sent (transport (endpoint (deliver_all more s))) = [packet_count_request].
Proof.
  intros Hc. unfold query_master_run. cbn [snd].
  destruct (create_datagram_endpoint_created addr net Hc) as (s & Hcr & Htr & _).
  rewrite (query_master_try_created _ _ _ _ Hcr). cbn [snd].
  pose proof (wait_for_keeps timeout (wait_from net) (events net) s) as Hk.
  destruct (wait_for timeout (wait_from net) (events net) s) as [r [s' rest]].
  cbn [fst snd] in Hk. rewrite Htr in Hk.
  exists s', rest. split; [done|]. split; [by rewrite Hk|].
  intros more. destruct (deliver_all_keeps more s') as [-> _]. by rewrite Hk.
Qed.

Lemma one_request_per_session_witness :
  exists s rest,
    snd (query_master_run "master1" addr1 net_ok 1) = Some (s, rest)
    /\ sent (transport (endpoint s)) = [packet_count_request]
    /\ forall more,
         sent (transport (endpoint (deliver_all more s))) = [packet_count_request].
Proof. apply (one_request_per_session "master1" addr1 net_ok 1). reflexivity. Defined.

(** X6: the request packet is no response.  A datagram that starts with
    the request (an echo of it, with anything behind) does not pass the
    filter of [datagram_received], and leaves the session as it is. *)
Theorem echoed_request_is_discarded payload t s :
  is_match (packet_count_request ++ payload) = false
  /\ deliver {| at_time := t; call := DatagramReceived (packet_count_request ++ payload) |} s
     = s.
Proof.
  assert (Hm : is_match (packet_count_request ++ payload) = false).
  { unfold is_match. apply andb_false_iff. right. reflexivity. }
  split; [done|]. by apply deliver_discarded.
Qed.

(** ** Transport errors *)

(** X2: an error that the transport reports while the session waits
    resolves the session to status error, with no count and no latency; a
    response that comes after it, still before the deadline, changes
    nothing. *)
Theorem transport_error_resolves_error nm addr net timeout pre t e post :
  create_error net = None ->
  send_error net = None ->
  events net = pre ++ {| at_time := t; call := ErrorReceived e |} :: post ->
  Forall (fun ev => before_deadline timeout (wait_from net) ev /\ discarded ev) pre ->
  (t < wait_from net + timeout)%Q ->
  e <> TimeoutError ->
  query_master nm addr net timeout
  = Return {| name := nm; server_count := None; latency := None; status := "error" |}.
Proof.
  intros Hc Hs Hev Hpre Ht He.
  rewrite query_master_of_try,
    (try_raises_error_received addr net timeout pre t e post) by done.
  by destruct (decide (e = TimeoutError)).
Qed.

Lemma transport_error_resolves_error_witness :
  query_master "master1" addr1 net_refused 1
  = Return {| name := "master1"; server_count := None; latency := None;
              status := "error" |}.
Proof.
  apply (transport_error_resolves_error "master1" addr1 net_refused 1 [garbage]
           (1002 # 10)%Q (OSError 111) [response_at (1003 # 10)%Q x00 x78]).
  - reflexivity.
  - reflexivity.
  - reflexivity.
  - repeat constructor.
  - reflexivity.
  - discriminate.
Defined.

(** X3: when the socket refuses the request in [connection_made], the
    session resolves to status error whatever arrives afterwards, a
    well-formed response included. *)
Theorem send_failure_resolves_error nm addr net timeout e :
  create_error net = None ->
  send_error net = Some e ->
  e <> TimeoutError ->
  query_master nm addr net timeout
  = Return {| name := nm; server_count := None; latency := None; status := "error" |}.
Proof.
  intros Hc Hs He.
  rewrite query_master_of_try, (try_raises_send addr net timeout e) by done.
  by destruct (decide (e = TimeoutError)).
Qed.

Lemma send_failure_resolves_error_witness :
  query_master "master1" addr1 net_unsent 1
  = Return {| name := "master1"; server_count := None; latency := None;
              status := "error" |}.
Proof.
  apply (send_failure_resolves_error "master1" addr1 net_unsent 1 (OSError 101)).
  - reflexivity.
  - reflexivity.
  - discriminate.
Defined.

(** ** Callbacks after the resolution *)

Lemma datagram_received_after_done hi lo now ep t0 :
  time_start (protocol ep) = Some t0 ->
  done (waiter (protocol ep)) = true ->
  datagram_received (packet_count_response ++ [hi; lo]) now ep
  = (Raise InvalidStateError, ep).
Proof.
  intros Ht Hd. unfold datagram_received.
  rewrite filter_is_match, is_match_response.
  cbn [negb]. unfold bind at 1, get_time_start. cbv beta iota. rewrite Ht.
  rewrite drop_app_length.
  unfold bind, lift, get. cbn [unpack_H].
  by destruct (waiter (protocol ep)).
Qed.

Lemma error_received_after_done exc ep :
  done (waiter (protocol ep)) = true ->
  error_received exc ep = (Raise InvalidStateError, ep).
Proof.
  intros Hd. unfold error_received, bind, lift, get.
  by destruct (waiter (protocol ep)).
Qed.

(** X4: once the future of a session is done (by a response, an error or
    the timeout), a further well-formed response and a further transport
    error both raise [InvalidStateError] inside the handler: the loop's
    exception handler gets it, and the objects of the session are
    untouched. *)
Theorem callbacks_after_resolution_raise t hi lo exc s t0 :
  closed (transport (endpoint s)) = false ->
  time_start (protocol (endpoint s)) = Some t0 ->
  done (session_waiter s) = true ->
  deliver (response_at t hi lo) s
  = {| endpoint := endpoint s; unhandled := unhandled s ++ [InvalidStateError] |}
  /\ deliver {| at_time := t; call := ErrorReceived exc |} s
     = {| endpoint := endpoint s; unhandled := unhandled s ++ [InvalidStateError] |}.
Proof.
  intros Hc Ht Hd. unfold deliver, response_at. rewrite Hc. cbn [call at_time].
  unfold run_callback.
  rewrite (datagram_received_after_done hi lo t (endpoint s) t0) by done.
  by rewrite error_received_after_done.
Qed.

Lemma callbacks_after_resolution_raise_witness :
  deliver (response_at (1004 # 10)%Q x00 x79) session_resolved
  = {| endpoint := endpoint session_resolved;
       unhandled := unhandled session_resolved ++ [InvalidStateError] |}
  /\ deliver {| at_time := (1004 # 10)%Q; call := ErrorReceived (OSError 111) |}
       session_resolved
     = {| endpoint := endpoint session_resolved;
          unhandled := unhandled session_resolved ++ [InvalidStateError] |}.
Proof.
  apply (callbacks_after_resolution_raise (1004 # 10)%Q x00 x79 (OSError 111)
           session_resolved 100%Q).
  - reflexivity.
  - reflexivity.
  - reflexivity.
Defined.

(** ** Where a status ok comes from *)

Lemma deliver_finished ev s t0 info :
  closed (transport (endpoint s)) = false ->
  time_start (protocol (endpoint s)) = Some t0 ->
  session_waiter s = Pending ->
  session_waiter (deliver ev s) = Finished info ->
  exists hi lo,
    call ev = DatagramReceived (packet_count_response ++ [hi; lo])
    /\ info = info_of (big_endian hi lo) (at_time ev - t0)%Q.
Proof.
  intros Hc Ht Hw. unfold deliver. rewrite Hc.
  unfold session_waiter, response in *.
  destruct (call ev) as [data|exc]; rewrite endpoint_run_callback.
  - unfold datagram_received. rewrite filter_is_match.
    destruct (is_match data) eqn:Hm; cbn [negb]; [|by simpl; rewrite Hw].
    unfold bind at 1, get_time_start. cbv beta iota. rewrite Ht.
    unfold bind at 1, lift.
    destruct (drop (length packet_count_response) data) as [|hi [|lo [|? ?]]] eqn:Hdrop;
      cbn [unpack_H]; try (by simpl; rewrite Hw).
    unfold bind, get, lift, set_waiter. rewrite Hw. simpl. intros [= <-].
    exists hi, lo. split; [|done]. f_equal.
    apply andb_true_iff in Hm as [_ Hsw]. apply startswith_take in Hsw.
    by rewrite <- (take_drop (length packet_count_response) data), Hsw, Hdrop.
  - unfold error_received, bind, lift, get, set_waiter. rewrite Hw. by simpl.
Qed.

Lemma wait_for_ok_sound timeout now evs s t0 info :
  closed (transport (endpoint s)) = false ->
  time_start (protocol (endpoint s)) = Some t0 ->
  session_waiter s = Pending ->
  fst (wait_for timeout now evs s) = Return info ->
  exists ev hi lo,
    ev ∈ evs
    /\ before_deadline timeout now ev
    /\ call ev = DatagramReceived (packet_count_response ++ [hi; lo])
    /\ info = info_of (big_endian hi lo) (at_time ev - t0)%Q.
Proof.
  revert s. induction evs as [|ev evs IH]; intros s Hc Ht Hw; simpl; rewrite Hw; simpl;
    [done|].
  destruct (Qle_bool (now + timeout) (at_time ev)) eqn:Hle; [done|].
  assert (Hb : before_deadline timeout now ev).
  { unfold before_deadline. apply Qnot_le_lt. intros Hle'.
    apply Qle_bool_iff in Hle'. congruence. }
  destruct (deliver_keeps ev s) as [Hktr Hkts].
  destruct (session_waiter (deliver ev s)) as [|info'|e|] eqn:Hw'.
  - intros Hr. destruct (IH (deliver ev s)) as (ev' & hi & lo & Hin & H');
      [by rewrite Hktr | by rewrite Hkts | done | done |].
    exists ev', hi, lo. split; [by right | done].
  - rewrite wait_for_done by (by rewrite Hw'). rewrite Hw'. simpl. intros [= <-].
    destruct (deliver_finished ev s t0 info' Hc Ht Hw Hw') as (hi & lo & Hcall & Hi).
    exists ev, hi, lo. split; [by left | done].
  - rewrite wait_for_done by (by rewrite Hw'). by rewrite Hw'.
  - rewrite wait_for_done by (by rewrite Hw'). by rewrite Hw'.
Qed.

(** X5: a status ok is never made up.  When [query_master] returns status
    ok, the loop has delivered, before the deadline, a datagram that is the
    response prefix followed by exactly two bytes; the server count is the
    big-endian value of these two bytes, between 0 and 65535, the latency
    is the clock at that delivery minus the clock at [connection_made],
    and neither the creation of the endpoint nor the sending failed. *)
Theorem status_ok_comes_from_a_response nm addr net timeout masterinfo :
  query_master nm addr net timeout = Return masterinfo ->
  status masterinfo = "ok" ->
  exists ev hi lo,
    ev ∈ events net
    /\ before_deadline timeout (wait_from net) ev
    /\ call ev = DatagramReceived (packet_count_response ++ [hi; lo])
    /\ masterinfo
       = {| name := nm;
            server_count := Some (Z.of_N (Byte.to_N hi) * 256 + Z.of_N (Byte.to_N lo));
            latency := Some (at_time ev - connected_at net)%Q;
            status := "ok" |}
    /\ 0 <= Z.of_N (Byte.to_N hi) * 256 + Z.of_N (Byte.to_N lo) < 65536
    /\ create_error net = None
    /\ send_error net = None.
Proof.
  rewrite query_master_of_try.
  destruct (fst (query_master_try addr net timeout)) as [info|e] eqn:Htry;
    [|by destruct (decide _); intros [= <-]].
  intros [= <-] _.
  destruct (create_error net) as [e|] eqn:Hc.
  { by rewrite (try_raises_create _ _ _ _ Hc) in Htry. }
  destruct (send_error net) as [e|] eqn:Hs.
  { by rewrite (try_raises_send _ _ _ _ Hc Hs) in Htry. }
  destruct (create_datagram_endpoint_created addr net Hc) as (s & Hcr & Htr & Hts & Hw).
  rewrite Hs in Hw. rewrite (query_master_try_created _ _ _ _ Hcr) in Htry.
  cbn [fst] in Htry.
  destruct (wait_for_ok_sound timeout (wait_from net) (events net) s
              (connected_at net) info) as (ev & hi & lo & Hin & Hb & Hcall & ->);
    [by rewrite Htr | done..|].
  exists ev, hi, lo. repeat (split; [done|]).
  split; [by apply (unpack_H_range hi lo)|done].
Qed.

Lemma status_ok_comes_from_a_response_witness :
  exists ev hi lo,
    ev ∈ events net_ok
    /\ before_deadline 1 (wait_from net_ok) ev
    /\ call ev = DatagramReceived (packet_count_response ++ [hi; lo])
    /\ ok_info "master1" 120 ((1003 # 10) - 100)%Q
       = {| name := "master1";
            server_count := Some (Z.of_N (Byte.to_N hi) * 256 + Z.of_N (Byte.to_N lo));
            latency := Some (at_time ev - connected_at net_ok)%Q;
            status := "ok" |}
    /\ 0 <= Z.of_N (Byte.to_N hi) * 256 + Z.of_N (Byte.to_N lo) < 65536
    /\ create_error net_ok = None
    /\ send_error net_ok = None.
Proof.
  apply (status_ok_comes_from_a_response "master1" addr1 net_ok 1
           (ok_info "master1" 120 ((1003 # 10) - 100)%Q)).
  - reflexivity.
  - reflexivity.
Defined.

(** ** Sessions that hear nothing usable *)

Lemma deliver_unusable ev s :
  waiting s -> unusable ev -> waiting (deliver ev s).
Proof.
  intros (Hc & [t0 Ht] & Hw) Hu. unfold unusable in Hu.
  destruct (call ev) as [data|] eqn:Hcall; [|done].
  destruct (is_match data) eqn:Hm.
  - destruct Hu as [|Hlen]; [done|].
    unfold deliver. rewrite Hc, Hcall. unfold run_callback.
    rewrite (datagram_received_struct_error data _ _ t0) by done.
    by repeat split; [|exists t0|].
  - rewrite deliver_discarded; [by repeat split; [|exists t0|]|].
    unfold discarded. by rewrite Hcall.
Qed.

Lemma wait_for_unusable timeout now evs s :
  waiting s ->
  Forall (fun ev => before_deadline timeout now ev -> unusable ev) evs ->
  fst (wait_for timeout now evs s) = Raise TimeoutError.
Proof.
  intros Hs Hevs. revert s Hs.
  induction Hevs as [|ev evs Hev _ IH]; intros s Hs;
    pose proof Hs as (_ & _ & Hw); simpl; rewrite Hw; simpl; [done|].
  destruct (Qle_bool (now + timeout) (at_time ev)) eqn:Hle; [done|].
  apply IH, deliver_unusable; [done|]. apply Hev. unfold before_deadline.
  apply Qnot_le_lt. intros Hle'. apply Qle_bool_iff in Hle'. congruence.
Qed.

(** X7: a session that, before the deadline, is delivered only datagrams
    that are no match or are matches of the wrong size (not 16 bytes)
    resolves to status timeout: a response of the wrong size does not end
    the waiting, and does not turn the session into an error. *)
Theorem unusable_datagrams_resolve_timeout nm addr net timeout :
  create_error net = None ->
  send_error net = None ->
  Forall (fun ev => before_deadline timeout (wait_from net) ev -> unusable ev)
         (events net) ->
  query_master nm addr net timeout
  = Return {| name := nm; server_count := None; latency := None; status := "timeout" |}.
Proof.
  intros Hc Hs Hevs.
  destruct (create_datagram_endpoint_created addr net Hc) as (s & Hcr & Htr & Hts & Hw).
  rewrite Hs in Hw.
  rewrite query_master_of_try, (query_master_try_created _ _ _ _ Hcr). cbn [fst].
  rewrite wait_for_unusable; [done| |done].
  split; [by rewrite Htr|]. split; [by rewrite Hts|done].
Qed.

Lemma unusable_datagrams_resolve_timeout_witness :
  query_master "master3" addr1 net_noise 1
  = Return {| name := "master3"; server_count := None; latency := None;
              status := "timeout" |}.
Proof.
  apply (unusable_datagrams_resolve_timeout "master3" addr1 net_noise 1).
  - reflexivity.
  - reflexivity.
  - constructor; [intros _; left; reflexivity|].
    constructor; [intros _; right; discriminate|].
    constructor; [|constructor].
    unfold before_deadline, Qlt. simpl. lia.
Defined.

(** ** What [update] leaves in the file *)

Lemma done_order_cycle3 : done_order cycle3 ≡ₚ seq 0 (size masters).
Proof.
  rewrite size_masters. simpl.
  apply NoDup_Permutation.
  - apply (bool_decide_unpack _). by vm_compute.
  - apply (bool_decide_unpack _). by vm_compute.
  - intros i. rewrite !elem_of_cons, !elem_of_nil. tauto.
Qed.

(** X8: when the output file opens, [update] replaces its content: what
    was in the file before has no influence.  The new content is two
    header lines, one row for each of the five masters, in the order of
    the snapshot, and two footer lines. *)
Theorem update_replaces_file c file file' :
  done_order c ≡ₚ seq 0 (size masters) ->
  open_error c = None ->
  exists snapshot,
    masterinfos_of masters c = Return snapshot
    /\ update c file = (Return tt, html_print snapshot)
    /\ update c file' = update c file
    /\ length (html_print snapshot) = 9%nat
    /\ take 5 (drop 2 (html_print snapshot)) = html_row <$> snapshot.
Proof.
  intros Hp Ho. exists (sorted name (picked_of masters c)).
  assert (Hlen : length (sorted name (picked_of masters c)) = 5%nat).
  { by rewrite sorted_Permutation, picked_Permutation, <- (length_fmap name),
      names_results, length_fmap, length_map_to_list. }
  split; [apply masterinfos_of_picked|].
  unfold update. rewrite !update_of_written by done.
  split; [done|]. split; [done|].
  unfold html_print. split.
  - rewrite !length_app, length_fmap, Hlen. reflexivity.
  - rewrite drop_app_length' by done. rewrite take_app_length'; [done|].
    by rewrite length_fmap.
Qed.

Lemma update_replaces_file_witness :
  exists snapshot,
    masterinfos_of masters cycle1 = Return snapshot
    /\ update cycle1 ["old line"] = (Return tt, html_print snapshot)
    /\ update cycle1 [] = update cycle1 ["old line"]
    /\ length (html_print snapshot) = 9%nat
    /\ take 5 (drop 2 (html_print snapshot)) = html_row <$> snapshot.
Proof.
  apply (update_replaces_file cycle1 ["old line"] []).
  - exact done_order_cycle1.
  - reflexivity.
Defined.

(** ** [main] when the file cannot be opened *)

Lemma main_loop_stops k fuel world i file e :
  (k < fuel)%nat ->
  (forall j, (i <= j < i + k)%nat -> open_error (world j) = None) ->
  open_error (world (i + k)%nat) = Some e ->
  main_loop fuel world i file
  = (flat_map (fun j => [Updated (written (world j)); Slept 10]) (seq i k),
     Raised e,
     foldl (fun _ j => written (world j)) file (seq i k)).
Proof.
  revert fuel i file. induction k as [|k IH]; intros fuel i file Hk Hopen He;
    (destruct fuel as [|fuel]; [lia|]); cbn [main_loop].
  - rewrite Nat.add_0_r in He. unfold update, update_of. by rewrite He.
  - unfold update.
    rewrite update_of_written, <- written_picked by (apply Hopen; lia).
    rewrite (IH fuel (S i)); [done|lia| |].
    + intros j Hj. apply Hopen. lia.
    + by rewrite Nat.add_succ_comm.
Qed.

(** X9: [main] catches nothing.  When the output file cannot be opened
    in cycle [k], after [k] cycles that went well, the exception of [open]
    leaves the loop: the polling ends there, after exactly [k] updates and
    [k] sleeps, and the file keeps what the last good cycle wrote. *)
Theorem poll_loop_ends_when_open_fails fuel world file k e :
  (k < fuel)%nat ->
  (forall j, (j < k)%nat -> open_error (world j) = None) ->
  open_error (world k) = Some e ->
  main fuel world file
  = (flat_map (fun j => [Updated (written (world j)); Slept 10]) (seq 0 k),
     Raised e,
     foldl (fun _ j => written (world j)) file (seq 0 k)).
Proof.
  intros Hk Hopen He. unfold main. apply main_loop_stops; [done| |done].
  intros j Hj. apply Hopen. lia.
Qed.

Lemma poll_loop_ends_when_open_fails_witness :
  main 5 (fun j => if (j <? 2)%nat then cycle1 else cycle_unwritable) []
  = ([Updated (written cycle1); Slept 10; Updated (written cycle1); Slept 10],
     Raised (OSError 13),
     written cycle1).
Proof.
  apply (poll_loop_ends_when_open_fails 5
           (fun j => if (j <? 2)%nat then cycle1 else cycle_unwritable) [] 2
           (OSError 13)).
  - lia.
  - intros j Hj. destruct j as [|[|j]]; [reflexivity|reflexivity|lia].
  - reflexivity.
Defined.

(** ** Each endpoint on its own *)

(** X10: the entry of an endpoint in the snapshot is what the session of
    that endpoint returned, and nothing else bears on it: two passes in
    which the network behaves alike towards this endpoint have the same
    entry for it, whatever happens to the other endpoints and in whatever
    order the sessions are handed over. *)
Theorem endpoint_outcome_is_its_own registry c c' nm addr :
  registry !! nm = Some addr ->
  done_order c ≡ₚ seq 0 (size registry) ->
  done_order c' ≡ₚ seq 0 (size registry) ->
  network c' nm = network c nm ->
  exists snapshot snapshot' masterinfo,
    masterinfos_of registry c = Return snapshot
    /\ masterinfos_of registry c' = Return snapshot'
    /\ query_master nm addr (network c nm) default_timeout = Return masterinfo
    /\ masterinfo ∈ snapshot
    /\ masterinfo ∈ snapshot'
    /\ (forall other, other ∈ snapshot -> name other = nm -> other = masterinfo)
    /\ (forall other, other ∈ snapshot' -> name other = nm -> other = masterinfo).
Proof.
  intros Hl Hp Hp' Hnet.
  exists (sorted name (picked_of registry c)), (sorted name (picked_of registry c')),
    (resolved nm addr (network c nm) default_timeout).
  assert (Hin : forall d, done_order d ≡ₚ seq 0 (size registry) ->
            network d nm = network c nm ->
            resolved nm addr (network c nm) default_timeout
            ∈ sorted name (picked_of registry d)).
  { intros d Hd Hdn. rewrite sorted_Permutation, picked_Permutation, <- Hdn by done.
    by apply resolved_in_results. }
  assert (Huniq : forall d, done_order d ≡ₚ seq 0 (size registry) ->
            network d nm = network c nm ->
            forall other, other ∈ sorted name (picked_of registry d) ->
              name other = nm ->
              other = resolved nm addr (network c nm) default_timeout).
  { intros d Hd Hdn other Ho Hname.
    apply (NoDup_key_inj name (sorted name (picked_of registry d))); [|done| |].
    - rewrite sorted_Permutation, picked_Permutation, names_results by done.
      apply NoDup_fst_map_to_list.
    - by apply Hin.
    - by rewrite name_resolved. }
  split; [apply masterinfos_of_picked|]. split; [apply masterinfos_of_picked|].
  split; [apply query_master_returns|].
  split; [by apply Hin|]. split; [by apply Hin|].
  split; [by apply Huniq|by apply Huniq].
Qed.

Lemma endpoint_outcome_is_its_own_witness :
  exists snapshot snapshot' masterinfo,
    masterinfos_of masters cycle1 = Return snapshot
    /\ masterinfos_of masters cycle3 = Return snapshot'
    /\ query_master "master1" addr1 (network cycle1 "master1") default_timeout
       = Return masterinfo
    /\ masterinfo ∈ snapshot
    /\ masterinfo ∈ snapshot'
    /\ (forall other, other ∈ snapshot -> name other = "master1" -> other = masterinfo)
    /\ (forall other, other ∈ snapshot' -> name other = "master1" -> other = masterinfo).
Proof.
  apply (endpoint_outcome_is_its_own masters cycle1 cycle3 "master1" addr1).
  - reflexivity.
  - exact done_order_cycle1.
  - exact done_order_cycle3.
  - reflexivity.
Defined.

(** ** MasterInfo.__repr__ *)

(** X11: the [repr] of what [query_master] returns.  A result with status
    timeout or error is shown as the name and the status alone; a result
    with status ok has a count and a latency, and is shown with both when
    neither is zero. *)
Theorem repr_of_result nm addr net timeout masterinfo :
  query_master nm addr net timeout = Return masterinfo ->
  (status masterinfo = "ok"
   /\ exists servers lat,
        server_count masterinfo = Some servers
        /\ latency masterinfo = Some lat
        /\ (servers <> 0 -> ~ (lat == 0)%Q ->
            MasterInfo_repr masterinfo
            = "<MasterInfo " +:+ nm +:+ " ok (" +:+ pretty servers +:+ " servers, "
              +:+ format_0f (lat * 1000)%Q +:+ "ms)>"))
  \/ ((status masterinfo = "timeout" \/ status masterinfo = "error")
      /\ MasterInfo_repr masterinfo
         = "<MasterInfo " +:+ nm +:+ " " +:+ status masterinfo +:+ ">").
Proof.
  rewrite query_master_returns. intros [= <-].
  destruct (resolved_shape nm addr net timeout) as [(n & lat & ->) | [-> | ->]].
  - left. split; [done|]. exists n, lat. split; [done|]. split; [done|].
    intros Hn Hlat. unfold MasterInfo_repr, falsy. cbn [server_count latency ok_info].
    assert (Hq : Qeq_bool 0 lat = false).
    { destruct (Qeq_bool 0 lat) eqn:Hq; [|done].
      apply Qeq_bool_iff in Hq. destruct Hlat. by symmetry. }
    rewrite Hq. by destruct n.
  - right. split; [by left|done].
  - right. split; [by right|done].
Qed.

Lemma repr_of_result_witness :
  (status (ok_info "master1" 120 ((1003 # 10) - 100)%Q) = "ok"
   /\ exists servers lat,
        server_count (ok_info "master1" 120 ((1003 # 10) - 100)%Q) = Some servers
        /\ latency (ok_info "master1" 120 ((1003 # 10) - 100)%Q) = Some lat
        /\ (servers <> 0 -> ~ (lat == 0)%Q ->
            MasterInfo_repr (ok_info "master1" 120 ((1003 # 10) - 100)%Q)
            = "<MasterInfo " +:+ "master1" +:+ " ok (" +:+ pretty servers +:+ " servers, "
              +:+ format_0f (lat * 1000)%Q +:+ "ms)>"))
  \/ ((status (ok_info "master1" 120 ((1003 # 10) - 100)%Q) = "timeout"
       \/ status (ok_info "master1" 120 ((1003 # 10) - 100)%Q) = "error")
      /\ MasterInfo_repr (ok_info "master1" 120 ((1003 # 10) - 100)%Q)
         = "<MasterInfo " +:+ "master1" +:+ " "
           +:+ status (ok_info "master1" 120 ((1003 # 10) - 100)%Q) +:+ ">").
Proof.
  apply (repr_of_result "master1" addr1 net_ok 1
           (ok_info "master1" 120 ((1003 # 10) - 100)%Q)).
  reflexivity.
Defined.

(** The [repr] of the three results of [cycle1], computed. *)
Example repr_cycle1 :
  MasterInfo_repr <$> [ ok_info "master1" 120 ((1003 # 10) - 100)%Q;
                        timeout_info "master2"; error_info "website" ]
  = [ "<MasterInfo master1 ok (120 servers, 300ms)>";
      "<MasterInfo master2 timeout>";
      "<MasterInfo website error>" ].
Proof. reflexivity. Qed.
